(** * Story management screens: the [useStories] hook, the
      [ManageStories] view and the reading statistics of [LibraryPage].

    The hook and the views are embedded as functions over an explicit
    world: the hook's React state, the remote store behind the query
    client, and a chronological trace of the observable effects (state
    writes, remote requests, console output, notifications). *)

From Stdlib Require Import String Ascii List Bool Arith ZArith Lia Permutation.
From Stdlib Require Import Floats.
Import ListNotations.
Local Open Scope string_scope.
Local Open Scope list_scope.

(* ===================================================================== *)
(** ** JavaScript string helpers *)
(* ===================================================================== *)

(** [String.prototype.toLowerCase] as it acts on ASCII text: the letters
    [A]..[Z] move to [a]..[z], every other unit is kept. On other text
    the built-in folds further letters; where that matters the built-in
    is a parameter (the definitions whose names end in [_with]), and
    this function is its instance on ASCII text. *)
Definition lower_ascii (c : ascii) : ascii :=
  let n := nat_of_ascii c in
  if ((65 <=? n)%nat && (n <=? 90)%nat)%bool then ascii_of_nat (n + 32) else c.

Fixpoint toLowerCase (s : string) : string :=
  match s with
  | EmptyString => EmptyString
  | String c s' => String (lower_ascii c) (toLowerCase s')
  end.

(** [s.startsWith(t)] *)
Fixpoint startsWith (s t : string) : bool :=
  match t, s with
  | EmptyString, _ => true
  | String _ _, EmptyString => false
  | String b t', String a s' => Ascii.eqb a b && startsWith s' t'
  end.

(** [s.includes(t)]: [t] occurs in [s] at some position. *)
Fixpoint includes (s t : string) : bool :=
  startsWith s t ||
  match s with
  | EmptyString => false
  | String _ s' => includes s' t
  end.

(** Truthiness of a [string | null] value: [null] and the empty string
    are falsy. *)
Definition truthy (v : option string) : bool :=
  match v with
  | None => false
  | Some EmptyString => false
  | Some (String _ _) => true
  end.

(* ===================================================================== *)
(** ** Data model ([useStories.ts], lines 4-30) *)
(* ===================================================================== *)

Inductive Status : Type := draft | published | archived.

Definition status_str (s : Status) : string :=
  match s with
  | draft => "draft"
  | published => "published"
  | archived => "archived"
  end.

Definition Status_eqb (a b : Status) : bool :=
  match a, b with
  | draft, draft | published, published | archived, archived => true
  | _, _ => false
  end.

(** A row of the [profiles] table, as selected by the hook
    ([user_id, display_name, username]). *)
Record Profile : Type := mkProfile {
  user_id : string;
  display_name : option string;
  username : option string
}.

(** A row of the [stories] table: the scalar fields of [Story]. *)
Record StoryRow : Type := mkStoryRow {
  id : string;
  title : string;
  description : option string;
  genre : option string;
  cover_image_url : option string;
  author_id : string;
  status : Status;
  view_count : Z;
  like_count : Z;
  comment_count : Z;
  created_at : string;
  updated_at : string
}.

(** A story as held by the hook: [{ ...story, profiles: profile || null }]. *)
Record Story : Type := mkStory {
  row : StoryRow;
  profiles : option Profile
}.

(** A row of [story_tags]. *)
Record TagRow : Type := mkTagRow {
  story_id : string;
  tag : string
}.

(** [Partial<Story>]: every scalar field may be given or left out. *)
Record StoryUpdates : Type := mkStoryUpdates {
  u_id : option string;
  u_title : option string;
  u_description : option (option string);
  u_genre : option (option string);
  u_cover_image_url : option (option string);
  u_author_id : option string;
  u_status : option Status;
  u_view_count : option Z;
  u_like_count : option Z;
  u_comment_count : option Z;
  u_created_at : option string;
  u_updated_at : option string
}.

Definition no_updates : StoryUpdates :=
  mkStoryUpdates None None None None None None None None None None None None.

(** The object literal [{ status: newStatus }]. *)
Definition status_only (s : Status) : StoryUpdates :=
  mkStoryUpdates None None None None None None (Some s) None None None None None.

(** The object inserted by [createStory] (lines 86-93). *)
Record StoryInsert : Type := mkStoryInsert {
  i_title : string;
  i_description : string;
  i_genre : string;
  i_author_id : string;
  i_cover_image_url : option string;
  i_status : Status
}.

(** The argument of [createStory] (lines 75-82). *)
Record StoryData : Type := mkStoryData {
  sd_title : string;
  sd_description : string;
  sd_genre : string;
  sd_author_id : string;
  sd_tags : option (list string);
  sd_cover_image_url : option string
}.

(** A thrown or returned error value: whether it is an [instanceof Error]
    and its [message]. *)
Record ErrVal : Type := mkErr {
  instanceofError : bool;
  message : string
}.

(** [err instanceof Error ? err.message : fallback] *)
Definition errMessage (err : ErrVal) (fallback : string) : string :=
  if instanceofError err then message err else fallback.

(** The [{ data, error }] pair every query resolves to. *)
Record Response (A : Type) : Type := mkResponse {
  data : option A;
  error : option ErrVal
}.
Arguments mkResponse {A} _ _.
Arguments data {A} _.
Arguments error {A} _.

(* ===================================================================== *)
(** ** The remote store (external interface)

    The tables the hook talks to, with the meaning of the five queries it
    builds: select with an equality filter and an order, select with a
    membership filter, insert, update by key and delete by key. *)
(* ===================================================================== *)

Record Store : Type := mkStore {
  stories_tbl : list StoryRow;
  profiles_tbl : list Profile;
  story_tags_tbl : list TagRow
}.

Inductive Request : Type :=
| ReqSelectStories (status_eq : Status)
    (* from('stories').select('*').eq('status', _).order('created_at', desc) *)
| ReqSelectProfiles (user_id_in : list string)
    (* from('profiles').select(...).in('user_id', _) *)
| ReqInsertStory (payload : StoryInsert)
    (* from('stories').insert(_).select().single() *)
| ReqInsertTags (rows : list TagRow)
    (* from('story_tags').insert(_) *)
| ReqUpdateStory (id_eq : string) (updates : StoryUpdates)
    (* from('stories').update(_).eq('id', _) *)
| ReqDeleteStory (id_eq : string).
    (* from('stories').delete().eq('id', _) *)

(** [order('created_at', { ascending: false })]: newest first. *)
Fixpoint insert_desc (r : StoryRow) (l : list StoryRow) : list StoryRow :=
  match l with
  | [] => [r]
  | x :: xs =>
      if String.leb (created_at x) (created_at r)
      then r :: x :: xs
      else x :: insert_desc r xs
  end.

Definition order_desc (l : list StoryRow) : list StoryRow :=
  fold_right insert_desc [] l.

Definition select_stories (st : Status) (s : Store) : list StoryRow :=
  order_desc (filter (fun r => Status_eqb (status r) st) (stories_tbl s)).

Definition select_profiles (ids : list string) (s : Store) : list Profile :=
  filter (fun p => existsb (String.eqb (user_id p)) ids) (profiles_tbl s).

(** The row the store creates for an insert: the given fields, the
    identifier and timestamp it assigns, counters at zero. *)
Definition new_row (p : StoryInsert) (fresh : string * string) : StoryRow :=
  {| id := fst fresh;
     title := i_title p;
     description := Some (i_description p);
     genre := Some (i_genre p);
     cover_image_url := i_cover_image_url p;
     author_id := i_author_id p;
     status := i_status p;
     view_count := 0;
     like_count := 0;
     comment_count := 0;
     created_at := snd fresh;
     updated_at := snd fresh |}.

Definition insert_story (r : StoryRow) (s : Store) : Store :=
  {| stories_tbl := stories_tbl s ++ [r];
     profiles_tbl := profiles_tbl s;
     story_tags_tbl := story_tags_tbl s |}.

Definition insert_tags (rows : list TagRow) (s : Store) : Store :=
  {| stories_tbl := stories_tbl s;
     profiles_tbl := profiles_tbl s;
     story_tags_tbl := story_tags_tbl s ++ rows |}.

Definition override {A : Type} (o : option A) (a : A) : A :=
  match o with Some v => v | None => a end.

Definition apply_updates (u : StoryUpdates) (r : StoryRow) : StoryRow :=
  {| id := override (u_id u) (id r);
     title := override (u_title u) (title r);
     description := override (u_description u) (description r);
     genre := override (u_genre u) (genre r);
     cover_image_url := override (u_cover_image_url u) (cover_image_url r);
     author_id := override (u_author_id u) (author_id r);
     status := override (u_status u) (status r);
     view_count := override (u_view_count u) (view_count r);
     like_count := override (u_like_count u) (like_count r);
     comment_count := override (u_comment_count u) (comment_count r);
     created_at := override (u_created_at u) (created_at r);
     updated_at := override (u_updated_at u) (updated_at r) |}.

Definition update_story (key : string) (u : StoryUpdates) (s : Store) : Store :=
  {| stories_tbl :=
       map (fun r => if String.eqb (id r) key then apply_updates u r else r)
           (stories_tbl s);
     profiles_tbl := profiles_tbl s;
     story_tags_tbl := story_tags_tbl s |}.

Definition delete_story (key : string) (s : Store) : Store :=
  {| stories_tbl := filter (fun r => negb (String.eqb (id r) key)) (stories_tbl s);
     profiles_tbl := profiles_tbl s;
     story_tags_tbl := story_tags_tbl s |}.

(* ===================================================================== *)
(** ** The world and the effect monad *)
(* ===================================================================== *)

Inductive Event : Type :=
| EvSetStories (l : list Story)
| EvSetLoading (b : bool)
| EvSetError (m : string)
| EvRequest (r : Request)
| EvConsoleWarn (label : string) (e : ErrVal)
| EvToastSuccess (m : string)
| EvToastError (m : string).

(** [st_stories], [st_loading], [st_error] are the three [useState] cells
    of the hook. [fault n] is the error object the store answers the
    [n]-th remote call with, if any; [mint n] is the identifier and
    timestamp it assigns when the [n]-th call inserts a story. *)
Record World : Type := mkWorld {
  st_stories : list Story;
  st_loading : bool;
  st_error : option string;
  store : Store;
  calls : nat;
  trace : list Event;
  fault : nat -> option ErrVal;
  mint : nat -> string * string
}.

Inductive Outcome (A : Type) : Type :=
| Returned (a : A)
| Thrown (e : ErrVal).
Arguments Returned {A} _.
Arguments Thrown {A} _.

Definition M (A : Type) : Type := World -> Outcome A * World.

Definition ret {A : Type} (a : A) : M A := fun w => (Returned a, w).

Definition bind {A B : Type} (m : M A) (k : A -> M B) : M B :=
  fun w =>
    match m w with
    | (Returned a, w1) => k a w1
    | (Thrown e, w1) => (Thrown e, w1)
    end.

Definition throw {A : Type} (e : ErrVal) : M A := fun w => (Thrown e, w).

(** [try { m } catch (err) { h err }] *)
Definition try_catch {A : Type} (m : M A) (h : ErrVal -> M A) : M A :=
  fun w =>
    match m w with
    | (Returned a, w1) => (Returned a, w1)
    | (Thrown e, w1) => h e w1
    end.

(** [try { m } finally { f }] *)
Definition try_finally {A : Type} (m : M A) (f : M unit) : M A :=
  fun w =>
    match m w with
    | (o, w1) =>
        match f w1 with
        | (Returned _, w2) => (o, w2)
        | (Thrown e, w2) => (Thrown e, w2)
        end
    end.

Declare Scope hook_scope.
Delimit Scope hook_scope with hook.
Notation "x <- m ;; k" := (bind m (fun x => k))
  (at level 61, m at next level, right associativity) : hook_scope.
Notation "m ;; k" := (bind m (fun _ => k))
  (at level 61, right associativity) : hook_scope.
Local Open Scope hook_scope.

Definition emit (e : Event) (w : World) : World :=
  {| st_stories := st_stories w; st_loading := st_loading w;
     st_error := st_error w; store := store w; calls := calls w;
     trace := trace w ++ [e]; fault := fault w; mint := mint w |}.

Definition setStories (l : list Story) : M unit :=
  fun w =>
    (Returned tt,
     emit (EvSetStories l)
       {| st_stories := l; st_loading := st_loading w;
          st_error := st_error w; store := store w; calls := calls w;
          trace := trace w; fault := fault w; mint := mint w |}).

Definition setLoading (b : bool) : M unit :=
  fun w =>
    (Returned tt,
     emit (EvSetLoading b)
       {| st_stories := st_stories w; st_loading := b;
          st_error := st_error w; store := store w; calls := calls w;
          trace := trace w; fault := fault w; mint := mint w |}).

Definition setError (m : string) : M unit :=
  fun w =>
    (Returned tt,
     emit (EvSetError m)
       {| st_stories := st_stories w; st_loading := st_loading w;
          st_error := Some m; store := store w; calls := calls w;
          trace := trace w; fault := fault w; mint := mint w |}).

Definition console_warn (label : string) (e : ErrVal) : M unit :=
  fun w => (Returned tt, emit (EvConsoleWarn label e) w).

Definition toast_success (m : string) : M unit :=
  fun w => (Returned tt, emit (EvToastSuccess m) w).

Definition toast_error (m : string) : M unit :=
  fun w => (Returned tt, emit (EvToastError m) w).

(** The world once a request has been answered: the request is recorded,
    the call counter moves on, and the store is as the query left it. *)
Definition answered (r : Request) (s' : Store) (w : World) : World :=
  {| st_stories := st_stories w; st_loading := st_loading w;
     st_error := st_error w; store := s'; calls := S (calls w);
     trace := trace w ++ [EvRequest r]; fault := fault w; mint := mint w |}.

(** One awaited query: the store either answers with an error object (and
    is left as it was) or runs the query. *)
Definition remote {A : Type} (r : Request)
    (exec : Store -> string * string -> A * Store) : M (Response A) :=
  fun w =>
    match fault w (calls w) with
    | Some e => (Returned (mkResponse None (Some e)), answered r (store w) w)
    | None =>
        let (a, s') := exec (store w) (mint w (calls w)) in
        (Returned (mkResponse (Some a) None), answered r s' w)
    end.

(* ===================================================================== *)
(** ** The hook [useStories] *)
(* ===================================================================== *)

(** [storiesData?.map(story => ({ ...story, profiles: profile || null })) || []]
    with [profile = profilesData?.find(p => p.user_id === story.author_id)]
    (lines 59-65). *)
Definition storiesWithAuthors (storiesData : option (list StoryRow))
    (profilesData : option (list Profile)) : list Story :=
  match storiesData with
  | Some rows =>
      map (fun story =>
             let profile :=
               match profilesData with
               | Some ps => find (fun p => String.eqb (user_id p) (author_id story)) ps
               | None => None
               end in
             {| row := story; profiles := profile |})
          rows
  | None => []
  end.

(** [storiesData?.map(story => story.author_id) || []] (line 50). *)
Definition authorIds (storiesData : option (list StoryRow)) : list string :=
  match storiesData with
  | Some rows => map author_id rows
  | None => []
  end.

(** [fetchStories] (lines 37-73). *)
Definition fetchStories : M unit :=
  try_finally
    (try_catch
       (setLoading true ;;
        r <- remote (ReqSelectStories published)
               (fun s _ => (select_stories published s, s)) ;;
        match error r with
        | Some storiesError => throw storiesError
        | None =>
            p <- remote (ReqSelectProfiles (authorIds (data r)))
                   (fun s _ => (select_profiles (authorIds (data r)) s, s)) ;;
            match error p with
            | Some profilesError =>
                console_warn "Error fetching profiles:" profilesError
            | None => ret tt
            end ;;
            setStories (storiesWithAuthors (data r) (data p))
        end)
       (fun err => setError (errMessage err "Failed to fetch stories")))
    (setLoading false).

(** The [TypeError] of reading a property of [null]. *)
Definition typeError (m : string) : ErrVal :=
  {| instanceofError := true; message := m |}.

(** [createStory] (lines 75-115). *)
Definition createStory (storyData : StoryData) : M (option StoryRow) :=
  try_catch
    (let payload :=
       {| i_title := sd_title storyData;
          i_description := sd_description storyData;
          i_genre := sd_genre storyData;
          i_author_id := sd_author_id storyData;
          i_cover_image_url := sd_cover_image_url storyData;
          i_status := draft |} in
     r <- remote (ReqInsertStory payload)
            (fun s fresh =>
               let created := new_row payload fresh in
               (created, insert_story created s)) ;;
     match error r with
     | Some e => throw e
     | None =>
         let story := data r in
         match sd_tags storyData with
         | Some (t :: ts) =>
             match story with
             | Some s =>
                 let tagInserts :=
                   map (fun tg => {| story_id := id s; tag := tg |}) (t :: ts) in
                 _ <- remote (ReqInsertTags tagInserts)
                        (fun st _ => (tt, insert_tags tagInserts st)) ;;
                 ret tt
             | None =>
                 throw (typeError "Cannot read properties of null (reading 'id')")
             end
         | _ => ret tt
         end ;;
         fetchStories ;;
         ret story
     end)
    (fun err =>
       setError (errMessage err "Failed to create story") ;;
       throw err).

(** [updateStory] (lines 117-130). *)
Definition updateStory (key : string) (updates : StoryUpdates) : M unit :=
  try_catch
    (r <- remote (ReqUpdateStory key updates)
            (fun s _ => (tt, update_story key updates s)) ;;
     match error r with
     | Some e => throw e
     | None => fetchStories
     end)
    (fun err =>
       setError (errMessage err "Failed to update story") ;;
       throw err).

(** [deleteStory] (lines 132-145). *)
Definition deleteStory (key : string) : M unit :=
  try_catch
    (r <- remote (ReqDeleteStory key)
            (fun s _ => (tt, delete_story key s)) ;;
     match error r with
     | Some e => throw e
     | None => fetchStories
     end)
    (fun err =>
       setError (errMessage err "Failed to delete story") ;;
       throw err).

(** The members of the object the hook returns (lines 151-159). *)
Inductive HookMember : Type :=
| MStories | MLoading | MError
| MFetchStories | MCreateStory | MUpdateStory | MDeleteStory.

Definition useStories_return : list (string * HookMember) :=
  [ ("stories", MStories);
    ("loading", MLoading);
    ("error", MError);
    ("fetchStories", MFetchStories);
    ("createStory", MCreateStory);
    ("updateStory", MUpdateStory);
    ("deleteStory", MDeleteStory) ].

(** Property lookup on the returned object: [None] is [undefined]. *)
Fixpoint prop (name : string) (o : list (string * HookMember)) : option HookMember :=
  match o with
  | [] => None
  | (k, v) :: rest => if String.eqb k name then Some v else prop name rest
  end.

(** The hook's own mount effect (lines 147-149). *)
Definition useStories_effect : M unit := fetchStories.

(** The state the three [useState] calls start from (lines 33-35), over a
    given store and environment. *)
Definition useStories_init (s : Store) (f : nat -> option ErrVal)
    (m : nat -> string * string) : World :=
  {| st_stories := []; st_loading := true; st_error := None;
     store := s; calls := 0; trace := []; fault := f; mint := m |}.

(* ===================================================================== *)
(** ** The view [ManageStories] *)
(* ===================================================================== *)

(** The signed-in user of [useUser()]; [uid] is [user.id]. *)
Record User : Type := mkUser { uid : string }.

(** The four [useState] cells of the view (lines 47-50). *)
Record ViewState : Type := mkView {
  searchQuery : string;
  filterStatus : string;
  deleteDialogOpen : bool;
  storyToDelete : option string
}.

Definition ManageStories_init : ViewState :=
  {| searchQuery := ""; filterStatus := "all";
     deleteDialogOpen := false; storyToDelete := None |}.

(** The view's mount effect (lines 53-55) calls the [fetchUserStories]
    member it destructured from the hook's object; calling [undefined]
    throws a [TypeError]. *)
Definition ManageStories_effect : M unit :=
  match prop "fetchUserStories" useStories_return with
  | Some MFetchStories => fetchStories
  | Some _ | None => throw (typeError "fetchUserStories is not a function")
  end.

(** Mounting runs the effects in declaration order: the hook's (line 46
    is where the hook is called), then the view's. The fetch the first
    one starts is carried through before the second one is looked at. *)
Definition ManageStories_mount : M unit :=
  useStories_effect ;; ManageStories_effect.

(** [story.author_id === user?.id] (line 57). *)
Definition is_author (user : option User) (story : Story) : bool :=
  match user with
  | Some u => String.eqb (author_id (row story)) (uid u)
  | None => false
  end.

Definition userStories (user : option User) (stories : list Story) : list Story :=
  filter (is_author user) stories.

(** The predicate of lines 59-63. *)
Definition matches (searchQuery filterStatus : string) (story : Story) : bool :=
  let matchesSearch :=
    includes (toLowerCase (title (row story))) (toLowerCase searchQuery) in
  let matchesFilter :=
    String.eqb filterStatus "all"
    || String.eqb (status_str (status (row story))) filterStatus in
  matchesSearch && matchesFilter.

Definition filteredStories (userStories : list Story)
    (searchQuery filterStatus : string) : list Story :=
  filter (matches searchQuery filterStatus) userStories.

(** What one render shows, from the hook's collection and the view state. *)
Definition visibleStories (user : option User) (v : ViewState) (w : World)
    : list Story :=
  filteredStories (userStories user (st_stories w))
    (searchQuery v) (filterStatus v).

(** [handleDeleteClick] (lines 74-77). *)
Definition handleDeleteClick (storyId : string) (v : ViewState) : ViewState :=
  {| searchQuery := searchQuery v; filterStatus := filterStatus v;
     deleteDialogOpen := true; storyToDelete := Some storyId |}.

(** [setDeleteDialogOpen], also the dialog's [onOpenChange] (line 315). *)
Definition setDeleteDialogOpen (b : bool) (v : ViewState) : ViewState :=
  {| searchQuery := searchQuery v; filterStatus := filterStatus v;
     deleteDialogOpen := b; storyToDelete := storyToDelete v |}.

Definition setStoryToDelete (s : option string) (v : ViewState) : ViewState :=
  {| searchQuery := searchQuery v; filterStatus := filterStatus v;
     deleteDialogOpen := deleteDialogOpen v; storyToDelete := s |}.

(** [confirmDelete] (lines 79-91). *)
Definition confirmDelete (v : ViewState) : M ViewState :=
  if negb (truthy (storyToDelete v)) then ret v
  else
    match storyToDelete v with
    | Some sid =>
        try_catch
          (deleteStory sid ;; toast_success "Story deleted successfully")
          (fun _ => toast_error "Failed to delete story") ;;
        ret (setStoryToDelete None (setDeleteDialogOpen false v))
    | None => ret v
    end.

(** [newStatus] of [toggleStatus] (line 94). *)
Definition newStatus (currentStatus : string) : Status :=
  if String.eqb currentStatus "published" then draft else published.

(** [toggleStatus] (lines 93-102). *)
Definition toggleStatus (storyId currentStatus : string) : M unit :=
  let ns := newStatus currentStatus in
  try_catch
    (updateStory storyId (status_only ns) ;;
     toast_success
       ("Story "
        ++ (if Status_eqb ns published then "published" else "unpublished")
        ++ " successfully"))
    (fun _ => toast_error "Failed to update story status").

(** The three user actions of the delete flow: the menu item of a story
    (line 276), the dialog's action button (line 327) and the dialog's
    cancel button, which closes it through [onOpenChange]. *)
Inductive UiEvent : Type :=
| DeleteClick (storyId : string)
| ConfirmClick
| CancelClick.

Definition handle (e : UiEvent) (v : ViewState) : M ViewState :=
  match e with
  | DeleteClick sid => ret (handleDeleteClick sid v)
  | ConfirmClick => confirmDelete v
  | CancelClick => ret (setDeleteDialogOpen false v)
  end.

Fixpoint run_events (es : list UiEvent) (v : ViewState) : M ViewState :=
  match es with
  | [] => ret v
  | e :: rest => v' <- handle e v ;; run_events rest v'
  end.

(** The keys of the remote deletes recorded in a trace, in order. *)
Fixpoint remote_deletes (t : list Event) : list string :=
  match t with
  | [] => []
  | EvRequest (ReqDeleteStory k) :: rest => k :: remote_deletes rest
  | _ :: rest => remote_deletes rest
  end.

(** The remote requests recorded in a trace, in order. *)
Fixpoint requests (t : list Event) : list Request :=
  match t with
  | [] => []
  | EvRequest r :: rest => r :: requests rest
  | _ :: rest => requests rest
  end.

(* ===================================================================== *)
(** ** The reading statistics of [LibraryPage] *)
(* ===================================================================== *)

Module LibraryPage.

(** The joined story of a library item, as far as the page reads it. *)
Record StoryInfo : Type := mkStoryInfo {
  title : string;
  description : option string
}.

Record LibraryItem : Type := mkLibraryItem {
  stories : option StoryInfo;
  created_at : string
}.

(** A read; [progress] is a number (a double) or missing. *)
Record Read : Type := mkRead {
  story_id : string;
  chapter_id : option string;
  progress : option float
}.

Record Stats : Type := mkStats {
  totalSaved : Z;
  currentlyReading : Z;
  completed : Z;
  totalSlides : float
}.

(** Truthiness of a number: [NaN], [0] and [-0] are falsy. *)
Definition truthy_number (x : float) : bool :=
  negb (PrimFloat.is_nan x || PrimFloat.is_zero x).

(** [r.progress || 0] *)
Definition progress_or_0 (r : Read) : float :=
  match progress r with
  | Some p => if truthy_number p then p else 0%float
  | None => 0%float
  end.

(** [getReadingStats] (lines 81-88); [a > b] is [b < a] and [a >= b] is
    [b <= a] on numbers, and [+] is the addition of doubles. *)
Definition getReadingStats (library : list LibraryItem) (reads : list Read)
    : Stats :=
  {| totalSaved := Z.of_nat (length library);
     currentlyReading :=
       Z.of_nat (length (filter
         (fun r => PrimFloat.ltb 0 (progress_or_0 r)
                   && PrimFloat.ltb (progress_or_0 r) 100)
         reads));
     completed :=
       Z.of_nat (length (filter
         (fun r => PrimFloat.leb 100 (progress_or_0 r)) reads));
     totalSlides :=
       fold_left (fun sum r => PrimFloat.add sum (progress_or_0 r))
                 reads 0%float |}.

(** The number of elements of a list that satisfy a property. *)
Fixpoint count {A : Type} (P : A -> bool) (l : list A) : nat :=
  match l with
  | [] => 0
  | x :: xs => if P x then S (count P xs) else count P xs
  end.

(** The progress a read counts with: its value, or 0 when it is missing,
    not a number, or zero of either sign. *)
Definition progress_value (r : Read) : float :=
  match progress r with
  | None => 0%float
  | Some p =>
      if PrimFloat.is_nan p then 0%float
      else if PrimFloat.eqb p 0 then 0%float
      else p
  end.

End LibraryPage.

(* ===================================================================== *)
(** ** Vocabulary of the statements and sample data *)
(* ===================================================================== *)

(** The world [fetchStories] leaves when its story query is answered with
    the error object [e]. *)
Definition fetch_failed (e : ErrVal) (w : World) : World :=
  {| st_stories := st_stories w;
     st_loading := false;
     st_error := Some (errMessage e "Failed to fetch stories");
     store := store w;
     calls := S (calls w);
     trace := trace w ++
       [ EvSetLoading true;
         EvRequest (ReqSelectStories published);
         EvSetError (errMessage e "Failed to fetch stories");
         EvSetLoading false ];
     fault := fault w; mint := mint w |}.

(** The world [fetchStories] leaves when its story query succeeds; [warn]
    is what the profile round-trip put on the console and [ps] the
    profiles it delivered. *)
Definition fetch_done (warn : list Event) (ps : option (list Profile))
    (w : World) : World :=
  let rows := select_stories published (store w) in
  {| st_stories := storiesWithAuthors (Some rows) ps;
     st_loading := false;
     st_error := st_error w;
     store := store w;
     calls := S (S (calls w));
     trace := trace w ++
       [ EvSetLoading true;
         EvRequest (ReqSelectStories published);
         EvRequest (ReqSelectProfiles (map author_id rows)) ] ++
       warn ++
       [ EvSetStories (storiesWithAuthors (Some rows) ps);
         EvSetLoading false ];
     fault := fault w; mint := mint w |}.

(** The object [createStory] inserts for its argument. *)
Definition create_payload (d : StoryData) : StoryInsert :=
  {| i_title := sd_title d;
     i_description := sd_description d;
     i_genre := sd_genre d;
     i_author_id := sd_author_id d;
     i_cover_image_url := sd_cover_image_url d;
     i_status := draft |}.

(** The row the store creates when [createStory d] runs in [w]. *)
Definition created (d : StoryData) (w : World) : StoryRow :=
  new_row (create_payload d) (mint w (calls w)).

(** [storyData.tags && storyData.tags.length > 0] *)
Definition has_tags (d : StoryData) : bool :=
  match sd_tags d with
  | Some (_ :: _) => true
  | _ => false
  end.

(** The world after the successful story insert of [createStory d]. *)
Definition after_insert (d : StoryData) (w : World) : World :=
  answered (ReqInsertStory (create_payload d))
    (insert_story (created d w) (store w)) w.

(** The world in which [createStory d] starts its re-fetch: after the
    story insert and, when tags were given, after the tag insert,
    whatever the store answered to it. *)
Definition before_refetch (d : StoryData) (w : World) : World :=
  match sd_tags d with
  | Some (t :: ts) =>
      let rows :=
        map (fun tg => {| story_id := id (created d w); tag := tg |}) (t :: ts) in
      answered (ReqInsertTags rows)
        (match fault w (S (calls w)) with
         | Some _ => store (after_insert d w)
         | None => insert_tags rows (store (after_insert d w))
         end)
        (after_insert d w)
  | _ => after_insert d w
  end.

(** The world a mutation leaves when its write [r] is answered with the
    error object [e]. *)
Definition write_failed (r : Request) (fallback : string) (e : ErrVal)
    (w : World) : World :=
  {| st_stories := st_stories w;
     st_loading := st_loading w;
     st_error := Some (errMessage e fallback);
     store := store w;
     calls := S (calls w);
     trace := trace w ++ [EvRequest r; EvSetError (errMessage e fallback)];
     fault := fault w; mint := mint w |}.

(** The collection holds exactly the rows the store answers the hook's
    story query with, in that order. *)
Definition in_sync (w : World) : Prop :=
  map row (st_stories w) = select_stories published (store w).

(** A run that resolved with a value. *)
Definition resolved {A : Type} (r : Outcome A * World) : Prop :=
  match fst r with Returned _ => True | Thrown _ => False end.

(** A mutation [run] from [w] whose write [r] the store refused with [e]:
    the error is thrown on to the caller and recorded as a string, and
    nothing else happened: the collection and the store are as before and
    no further request was made. *)
Definition rethrown_and_recorded {A : Type} (run : Outcome A * World)
    (r : Request) (fallback : string) (e : ErrVal) (w : World) : Prop :=
  fst run = Thrown e
  /\ st_error (snd run) = Some (errMessage e fallback)
  /\ st_stories (snd run) = st_stories w
  /\ store (snd run) = store w
  /\ requests (trace (snd run)) = requests (trace w) ++ [r].

(** A mutation [run] from [w] whose re-fetch the store refused with [e]:
    the mutation resolves all the same, the message of the fetch is
    recorded and the collection is as before. *)
Definition refetch_failure_absorbed {A : Type} (run : Outcome A * World)
    (e : ErrVal) (w : World) : Prop :=
  resolved run
  /\ st_error (snd run) = Some (errMessage e "Failed to fetch stories")
  /\ st_stories (snd run) = st_stories w.

(** The scenario of the library page: story A saved on day 1, one read
    of story A at progress 45. *)
Definition library_scenario : list LibraryPage.LibraryItem :=
  [ LibraryPage.mkLibraryItem
      (Some (LibraryPage.mkStoryInfo "Story A" None)) "day 1" ].

Definition reads_scenario : list LibraryPage.Read :=
  [ LibraryPage.mkRead "A" None (Some 45%float) ].

(** The keys selected by the delete requests among [rs]. *)
Definition deleted_keys (rs : list Request) : list string :=
  flat_map (fun r => match r with ReqDeleteStory k => [k] | _ => [] end) rs.

(** A request of the read path. *)
Definition is_select (r : Request) : bool :=
  match r with
  | ReqSelectStories _ | ReqSelectProfiles _ => true
  | _ => false
  end.

Definition is_confirm (e : UiEvent) : bool :=
  match e with ConfirmClick => true | _ => false end.

Definition no_fault : nat -> option ErrVal := fun _ => None.

Definition fault_at (k : nat) (e : ErrVal) : nat -> option ErrVal :=
  fun n => if Nat.eqb n k then Some e else None.

Definition mint_sample : nat -> string * string :=
  fun _ => ("story-new", "2025-03-01T00:00:00Z").

(** The error object of a refused query: a plain object, not an [Error]. *)
Definition refused : ErrVal :=
  {| instanceofError := false; message := "permission denied" |}.

Definition alice : User := {| uid := "alice" |}.

Definition alice_profile : Profile :=
  {| user_id := "alice"; display_name := Some "Alice"; username := Some "alice" |}.

Definition alice_draft : StoryRow :=
  {| id := "s1"; title := "Work in progress"; description := None;
     genre := None; cover_image_url := None; author_id := "alice";
     status := draft; view_count := 0; like_count := 0; comment_count := 0;
     created_at := "2025-01-01T00:00:00Z";
     updated_at := "2025-01-01T00:00:00Z" |}.

Definition alice_novel : StoryRow :=
  {| id := "s2"; title := "The Long Road"; description := Some "A novel";
     genre := Some "drama"; cover_image_url := None; author_id := "alice";
     status := published; view_count := 7; like_count := 2; comment_count := 1;
     created_at := "2025-02-01T00:00:00Z";
     updated_at := "2025-02-01T00:00:00Z" |}.

Definition store_draft_only : Store :=
  {| stories_tbl := [alice_draft]; profiles_tbl := [alice_profile];
     story_tags_tbl := [] |}.

Definition store_novel : Store :=
  {| stories_tbl := [alice_novel]; profiles_tbl := [alice_profile];
     story_tags_tbl := [] |}.

(** A hook that has fetched [store_novel] once. *)
Definition world_loaded (f : nat -> option ErrVal) : World :=
  {| st_stories := [ {| row := alice_novel; profiles := Some alice_profile |} ];
     st_loading := false; st_error := None;
     store := store_novel; calls := 0; trace := [];
     fault := f; mint := mint_sample |}.

(** A hook whose last fetch failed, in front of a store that now answers. *)
Definition world_stale_error : World :=
  {| st_stories := []; st_loading := false;
     st_error := Some "Failed to fetch stories";
     store := store_novel; calls := 0; trace := [];
     fault := no_fault; mint := mint_sample |}.

Definition sample_story_data (tags : option (list string)) : StoryData :=
  {| sd_title := "Notes"; sd_description := "Short notes";
     sd_genre := "essay"; sd_author_id := "alice";
     sd_tags := tags; sd_cover_image_url := None |}.

(* ===================================================================== *)
(** ** Further parts of the hook and of the two views *)
(* ===================================================================== *)

(** The calls a client of the hook can make, and runs of them. *)
Inductive HookOp : Type :=
| OpFetch
| OpCreate (storyData : StoryData)
| OpUpdate (key : string) (updates : StoryUpdates)
| OpDelete (key : string).

Definition run_op (o : HookOp) (w : World) : World :=
  match o with
  | OpFetch => snd (fetchStories w)
  | OpCreate d => snd (createStory d w)
  | OpUpdate k u => snd (updateStory k u w)
  | OpDelete k => snd (deleteStory k w)
  end.

Definition run_ops (os : list HookOp) (w : World) : World :=
  fold_left (fun acc o => run_op o acc) os w.

(** Every story of the collection is a published one. *)
Definition all_published (w : World) : Prop :=
  Forall (fun s => status (row s) = published) (st_stories w).

(** The notifications recorded in a trace, in order. *)
Fixpoint toasts (t : list Event) : list Event :=
  match t with
  | [] => []
  | EvToastSuccess m :: rest => EvToastSuccess m :: toasts rest
  | EvToastError m :: rest => EvToastError m :: toasts rest
  | _ :: rest => toasts rest
  end.

(** [setSearchQuery] and [setFilterStatus], the handlers of the search
    box (line 134) and of the filter buttons (line 144). *)
Definition setSearchQuery (q : string) (v : ViewState) : ViewState :=
  {| searchQuery := q; filterStatus := filterStatus v;
     deleteDialogOpen := deleteDialogOpen v; storyToDelete := storyToDelete v |}.

Definition setFilterStatus (f : string) (v : ViewState) : ViewState :=
  {| searchQuery := searchQuery v; filterStatus := f;
     deleteDialogOpen := deleteDialogOpen v; storyToDelete := storyToDelete v |}.








(** The values of the filter buttons (line 139). *)
Definition filterButtons : list string :=
  ["all"; "published"; "draft"; "archived"].

(** The caption of the publish button of a story (line 242). *)
Definition toggleLabel (currentStatus : string) : string :=
  if String.eqb currentStatus "published" then "Unpublish" else "Publish".

(** Truthiness of a plain string. *)
Definition nonempty (s : string) : bool :=
  match s with EmptyString => false | String _ _ => true end.

(** What the lower part of [ManageStories] renders (lines 155-312): the
    loading text or the grid of stories, and, under it, the card for an
    empty list with its message and, possibly, its create button. *)
Inductive Panel : Type :=
| LoadingText
| Grid (cards : list Story).

Record EmptyCard : Type := mkEmptyCard {
  hint : string;
  createButton : bool
}.

Definition render_panel (loading : bool) (filtered : list Story) : Panel :=
  if loading then LoadingText else Grid filtered.

Definition render_empty (loading : bool) (filtered : list Story)
    (v : ViewState) : option EmptyCard :=
  if Nat.eqb (length filtered) 0 && negb loading then
    Some {| hint :=
              if nonempty (searchQuery v)
                 || negb (String.eqb (filterStatus v) "all")
              then "Try adjusting your search or filters"
              else "Start your writing journey by creating your first story";
            createButton :=
              negb (nonempty (searchQuery v))
              && String.eqb (filterStatus v) "all" |}
  else None.

Module LibraryView.

(** [a === b] on [string | null] values. *)
Definition opt_eqb (a b : option string) : bool :=
  match a, b with
  | Some x, Some y => String.eqb x y
  | None, None => true
  | _, _ => false
  end.

(** [getReadingProgress] (lines 62-68); [None] stands for both
    [undefined] and [null]. *)
Definition getReadingProgress (reads : list LibraryPage.Read)
    (storyId : string) (chapterId : option string) : option LibraryPage.Read :=
  if truthy chapterId then
    find (fun r => String.eqb (LibraryPage.story_id r) storyId
                   && opt_eqb (LibraryPage.chapter_id r) chapterId)
         reads
  else
    let storyReads :=
      filter (fun r => String.eqb (LibraryPage.story_id r) storyId) reads in
    match storyReads with
    | [] => None
    | first :: _ => Some first
    end.

(** [Math.min(a, b)]: [NaN] when either is, else the smaller, and [-0]
    rather than [0] when both are zero. *)
Definition Math_min (a b : float) : float :=
  if PrimFloat.is_nan a || PrimFloat.is_nan b then PrimFloat.nan
  else if PrimFloat.ltb a b then a
  else if PrimFloat.ltb b a then b
  else if PrimFloat.get_sign a then a else b.

(** The width, in percent, of the progress bar of a read (line 287):
    [Math.min(100, progress.progress || 0)]. *)
Definition barWidth (r : LibraryPage.Read) : float :=
  Math_min 100 (LibraryPage.progress_or_0 r).

(** The predicate of the library search (lines 51-54): an item without
    its joined story never passes. *)
Definition libraryMatches (searchTerm : string) (item : LibraryPage.LibraryItem)
    : bool :=
  match LibraryPage.stories item with
  | Some st =>
      includes (toLowerCase (LibraryPage.title st)) (toLowerCase searchTerm)
      || match LibraryPage.description st with
         | Some d => includes (toLowerCase d) (toLowerCase searchTerm)
         | None => false
         end
  | None => false
  end.

Inductive SortBy : Type := recent | alphabetical.

(** [a.stories?.title || ""] *)
Definition titleOrEmpty (item : LibraryPage.LibraryItem) : string :=
  match LibraryPage.stories item with
  | Some st => LibraryPage.title st
  | None => ""
  end.

(** The comparator of lines 55-60, over the two built-ins it calls:
    [localeCompare] and the time of a parsed date. *)
Definition compareItems (localeCompare : string -> string -> Z)
    (getTime : string -> Z) (sortBy : SortBy)
    (a b : LibraryPage.LibraryItem) : Z :=
  match sortBy with
  | alphabetical => localeCompare (titleOrEmpty a) (titleOrEmpty b)
  | recent =>
      (getTime (LibraryPage.created_at b) - getTime (LibraryPage.created_at a))%Z
  end.

(** [filteredLibrary] (lines 50-60), over the built-in [sort]. *)
Definition filteredLibrary
    (sort : (LibraryPage.LibraryItem -> LibraryPage.LibraryItem -> Z) ->
            list LibraryPage.LibraryItem -> list LibraryPage.LibraryItem)
    (localeCompare : string -> string -> Z) (getTime : string -> Z)
    (library : list LibraryPage.LibraryItem) (searchTerm : string)
    (sortBy : SortBy) : list LibraryPage.LibraryItem :=
  sort (compareItems localeCompare getTime sortBy)
       (filter (libraryMatches searchTerm) library).

(** A stable insertion sort by a comparator, a sample of the built-in. *)
Fixpoint insert_by {A : Type} (cmp : A -> A -> Z) (x : A) (l : list A) : list A :=
  match l with
  | [] => [x]
  | y :: ys => if (cmp x y <=? 0)%Z then x :: y :: ys else y :: insert_by cmp x ys
  end.

Definition sort_by {A : Type} (cmp : A -> A -> Z) (l : list A) : list A :=
  fold_right (insert_by cmp) [] l.

(** The author line of a library card (line 270):
    [story.profiles?.display_name || story.profiles?.username || "Anonymous"]. *)
Definition authorLabel (joined : option Profile) : string :=
  let displayName :=
    match joined with Some p => display_name p | None => None end in
  let userName :=
    match joined with Some p => username p | None => None end in
  match displayName with
  | Some (String c s) => String c s
  | _ =>
      match userName with
      | Some (String c s) => String c s
      | _ => "Anonymous"
      end
  end.

(** What the handlers of the page do to their surroundings. *)
Inductive PageEvent : Type :=
| AskConfirm (question : string)
| RemoveFromLibrary (storyId userId : string)
| ToastSuccess (m : string)
| ToastError (m : string)
| Navigate (page : string)
| LocationHref (href : string).

(** [handleRemove] (lines 70-79). [confirmed] is the answer to the
    browser's confirm box, should it be asked; [removal] is the error
    [removeFromLibrary] fails with, if it does. *)
Definition handleRemove (user : option User) (confirmed : bool)
    (removal : option ErrVal) (storyId : string) : list PageEvent :=
  match user with
  | None => []
  | Some u =>
      AskConfirm "Remove this story from your library?" ::
      (if confirmed then
         RemoveFromLibrary storyId (uid u) ::
         match removal with
         | None => [ToastSuccess "Removed from library"]
         | Some _ => [ToastError "Failed to remove from library"]
         end
       else [])
  end.

(** The sign-up prompt: the effect of lines 39-43, [handleSignup] (lines
    45-48) and the prompt's [onOpenChange] (lines 96-102), each from the
    current value of [showSignupPrompt] to the next, with what it does. *)
Definition promptEffect (user : option User) (loading : bool) (shown : bool)
    : bool :=
  match user with
  | None => if negb loading then true else shown
  | Some _ => shown
  end.

Definition handleSignup (shown : bool) : bool * list PageEvent :=
  (false, [LocationHref "/"]).

Definition promptOpenChange (user : option User) (open : bool) (shown : bool)
    : bool * list PageEvent :=
  (open,
   match user with
   | None => if negb open then [Navigate "discover"] else []
   | Some _ => []
   end).

Inductive PromptEvent : Type :=
| Rendered (loading : bool)
| OpenChange (open : bool)
| Signup.

Definition promptStep (user : option User) (e : PromptEvent) (shown : bool)
    : bool * list PageEvent :=
  match e with
  | Rendered loading => (promptEffect user loading shown, [])
  | OpenChange open => promptOpenChange user open shown
  | Signup => handleSignup shown
  end.

Fixpoint promptRun (user : option User) (es : list PromptEvent) (shown : bool)
    : bool * list PageEvent :=
  match es with
  | [] => (shown, [])
  | e :: rest =>
      let (s1, out1) := promptStep user e shown in
      let (s2, out2) := promptRun user rest s1 in
      (s2, out1 ++ out2)
  end.

(** The dismissals among the events of the prompt. *)
Definition is_dismissal (e : PromptEvent) : bool :=
  match e with OpenChange false => true | _ => false end.

Definition is_navigate (e : PageEvent) : bool :=
  match e with Navigate _ => true | _ => false end.

End LibraryView.

(* ===================================================================== *)
(** ** String search *)
(* ===================================================================== *)

Lemma startsWith_spec (s t : string) :
  startsWith s t = true <-> exists post, s = (t ++ post)%string.
Proof.
  revert s; induction t as [|b t IH]; intros s; simpl.
  - split; [intros _; now exists s | intros _; now destruct s].
  - destruct s as [|a s]; simpl.
    + split; [discriminate | intros [post H]; discriminate].
    + rewrite andb_true_iff, Ascii.eqb_eq, IH. split.
      * intros [-> [post ->]]. now exists post.
      * intros [post H]. injection H as -> ->. split; [reflexivity | now exists post].
Qed.

Lemma includes_spec (s t : string) :
  includes s t = true <-> exists pre post, s = (pre ++ t ++ post)%string.
Proof.
  induction s as [|a s IH]; cbn [includes].
  - rewrite orb_false_r, startsWith_spec. split.
    + intros [post H]. now exists "", post.
    + intros [pre [post H]].
      destruct pre; cbn in H; [now exists post | discriminate].
  - rewrite orb_true_iff, startsWith_spec, IH. split.
    + intros [[post H] | [pre [post H]]].
      * now exists "", post.
      * exists (String a pre), post. cbn. now rewrite H.
    + intros [pre [post H]]. destruct pre as [|c pre]; cbn in H.
      * left. now exists post.
      * right. injection H as _ H. now exists pre, post.
Qed.

(* ===================================================================== *)
(** ** The store's ordered select *)
(* ===================================================================== *)

Lemma insert_desc_In (r x : StoryRow) (l : list StoryRow) :
  In x (insert_desc r l) <-> x = r \/ In x l.
Proof.
  induction l as [|y l IH]; simpl.
  - intuition.
  - destruct (String.leb (created_at y) (created_at r)); simpl.
    + intuition.
    + rewrite IH. intuition.
Qed.

Lemma order_desc_In (x : StoryRow) (l : list StoryRow) :
  In x (order_desc l) <-> In x l.
Proof.
  induction l as [|y l IH]; simpl.
  - reflexivity.
  - rewrite insert_desc_In, IH. intuition.
Qed.

Lemma select_stories_In (st : Status) (s : Store) (x : StoryRow) :
  In x (select_stories st s) <-> In x (stories_tbl s) /\ status x = st.
Proof.
  unfold select_stories. rewrite order_desc_In, filter_In.
  split; intros [H1 H2]; split; auto.
  - destruct (status x), st; simpl in H2; congruence.
  - rewrite H2. now destruct st.
Qed.

(* ===================================================================== *)
(** ** What [fetchStories] does, case by case *)
(* ===================================================================== *)

Ltac run_hook :=
  unfold fetchStories, createStory, updateStory, deleteStory,
    try_finally, try_catch, bind, ret, throw, remote,
    setLoading, setStories, setError, console_warn,
    toast_success, toast_error, emit, answered; simpl.

Lemma fetchStories_failed (w : World) (e : ErrVal) :
  fault w (calls w) = Some e ->
  fetchStories w = (Returned tt, fetch_failed e w).
Proof.
  intros H. run_hook. rewrite H. simpl.
  unfold fetch_failed. repeat rewrite <- app_assoc. reflexivity.
Qed.

Lemma fetchStories_done (w : World) :
  fault w (calls w) = None ->
  fault w (S (calls w)) = None ->
  fetchStories w =
    (Returned tt,
     fetch_done []
       (Some (select_profiles
                (map author_id (select_stories published (store w))) (store w)))
       w).
Proof.
  intros H1 H2. run_hook. rewrite H1. simpl. rewrite H2. simpl.
  unfold fetch_done. simpl. repeat rewrite <- app_assoc. reflexivity.
Qed.

Lemma fetchStories_without_profiles (w : World) (e : ErrVal) :
  fault w (calls w) = None ->
  fault w (S (calls w)) = Some e ->
  fetchStories w =
    (Returned tt,
     fetch_done [EvConsoleWarn "Error fetching profiles:" e] None w).
Proof.
  intros H1 H2. run_hook. rewrite H1. simpl. rewrite H2. simpl.
  unfold fetch_done. simpl. repeat rewrite <- app_assoc. reflexivity.
Qed.

Lemma storiesWithAuthors_rows (rows : list StoryRow) (ps : option (list Profile)) :
  map row (storiesWithAuthors (Some rows) ps) = rows.
Proof.
  unfold storiesWithAuthors. rewrite map_map. simpl. apply map_id.
Qed.

(** Every run of [fetchStories] ends in one of three ways. *)
Lemma fetchStories_cases (w : World) :
  (exists e, fault w (calls w) = Some e
             /\ fetchStories w = (Returned tt, fetch_failed e w))
  \/ (exists warn ps,
        fault w (calls w) = None
        /\ fetchStories w = (Returned tt, fetch_done warn ps w)
        /\ requests warn = []).
Proof.
  destruct (fault w (calls w)) as [e|] eqn:H1.
  - left. exists e. split; [reflexivity | exact (fetchStories_failed w e H1)].
  - right. destruct (fault w (S (calls w))) as [e|] eqn:H2.
    + eexists _, _. split; [reflexivity|].
      split; [exact (fetchStories_without_profiles w e H1 H2) | reflexivity].
    + eexists _, _. split; [reflexivity|].
      split; [exact (fetchStories_done w H1 H2) | reflexivity].
Qed.

Lemma fetchStories_returns (w : World) : fst (fetchStories w) = Returned tt.
Proof.
  destruct (fetchStories_cases w) as [[e [_ H]] | [warn [ps [_ [H _]]]]];
    now rewrite H.
Qed.

Lemma fetchStories_store (w : World) : store (snd (fetchStories w)) = store w.
Proof.
  destruct (fetchStories_cases w) as [[e [_ H]] | [warn [ps [_ [H _]]]]];
    now rewrite H.
Qed.

Lemma fetchStories_rows (w : World) :
  fault w (calls w) = None ->
  map row (st_stories (snd (fetchStories w))) =
    select_stories published (store w).
Proof.
  intros H1. destruct (fault w (S (calls w))) as [e|] eqn:H2.
  - rewrite (fetchStories_without_profiles w e H1 H2).
    exact (storiesWithAuthors_rows _ None).
  - rewrite (fetchStories_done w H1 H2).
    exact (storiesWithAuthors_rows _ (Some _)).
Qed.

Lemma requests_app (t u : list Event) :
  requests (t ++ u) = requests t ++ requests u.
Proof.
  induction t as [|ev t IH]; simpl; [reflexivity|].
  destruct ev; simpl; now rewrite IH.
Qed.

Lemma remote_deletes_requests (t : list Event) :
  remote_deletes t = deleted_keys (requests t).
Proof.
  induction t as [|ev t IH]; simpl; [reflexivity|].
  destruct ev as [| | |r| | |]; simpl; try assumption.
  destruct r; simpl; now rewrite IH.
Qed.

Lemma remote_deletes_app (t u : list Event) :
  remote_deletes (t ++ u) = remote_deletes t ++ remote_deletes u.
Proof.
  rewrite !remote_deletes_requests, requests_app. apply flat_map_app.
Qed.

(** The requests of one [fetchStories]: selects only, the story query
    first. *)
Lemma fetchStories_requests (w : World) :
  exists rest,
    requests (trace (snd (fetchStories w))) =
      requests (trace w) ++ ReqSelectStories published :: rest
    /\ forallb is_select rest = true.
Proof.
  destruct (fetchStories_cases w) as [[e [_ H]] | [warn [ps [_ [H Hw]]]]];
    rewrite H; simpl; rewrite requests_app; simpl.
  - exists []. split; reflexivity.
  - rewrite requests_app, Hw. simpl.
    eexists. split; reflexivity.
Qed.

(* ===================================================================== *)
(** ** C2: the flags and the collection around one fetch *)
(* ===================================================================== *)

(** C2, as the code has it: every run of [fetchStories] completes; it
    sets the loading flag to true first and to false last, and nowhere in
    between; when the story query fails the error message is set and the
    collection is kept, and when it succeeds the collection is replaced
    by the rows the store delivered while the error message is left as it
    was (it is never cleared). *)
Theorem fetchStories_loading_and_error (w : World) :
  fst (fetchStories w) = Returned tt
  /\ (exists mid,
        trace (snd (fetchStories w)) =
          trace w ++ EvSetLoading true :: mid ++ [EvSetLoading false]
        /\ Forall (fun ev => forall b, ev <> EvSetLoading b) mid)
  /\ st_loading (snd (fetchStories w)) = false
  /\ match fault w (calls w) with
     | Some e =>
         st_error (snd (fetchStories w)) =
           Some (errMessage e "Failed to fetch stories")
         /\ st_stories (snd (fetchStories w)) = st_stories w
     | None =>
         st_error (snd (fetchStories w)) = st_error w
         /\ map row (st_stories (snd (fetchStories w))) =
              select_stories published (store w)
     end.
Proof.
  split; [apply fetchStories_returns|].
  destruct (fault w (calls w)) as [e|] eqn:H1.
  - rewrite (fetchStories_failed w e H1). simpl. repeat split.
    eexists [_; _]. split; [reflexivity|].
    repeat constructor; intros b; discriminate.
  - destruct (fault w (S (calls w))) as [e|] eqn:H2.
    + rewrite (fetchStories_without_profiles w e H1 H2). simpl.
      repeat split.
      * eexists [_; _; _; _]. split; [reflexivity|].
        repeat constructor; intros b; discriminate.
      * exact (storiesWithAuthors_rows _ None).
    + rewrite (fetchStories_done w H1 H2). simpl. repeat split.
      * eexists [_; _; _]. split; [reflexivity|].
        repeat constructor; intros b; discriminate.
      * exact (storiesWithAuthors_rows _ (Some _)).
Qed.

(** A fetch that succeeds after an earlier failure leaves the old error
    message in place. *)
Lemma fetchStories_success_keeps_error :
  fault world_stale_error (calls world_stale_error) = None
  /\ fst (fetchStories world_stale_error) = Returned tt
  /\ map row (st_stories (snd (fetchStories world_stale_error))) = [alice_novel]
  /\ st_error (snd (fetchStories world_stale_error)) =
       Some "Failed to fetch stories"
  /\ st_error (snd (fetchStories world_stale_error)) <> None.
Proof.
  repeat split; try reflexivity. discriminate.
Qed.

(* ===================================================================== *)
(** ** C7: the profile round-trip and the merge *)
(* ===================================================================== *)

Lemma find_filter {A : Type} (f g : A -> bool) (l : list A) :
  (forall x, f x = true -> g x = true) ->
  find f (filter g l) = find f l.
Proof.
  intros Hfg. induction l as [|x l IH]; simpl; [reflexivity|].
  destruct (f x) eqn:Hf.
  - rewrite (Hfg x Hf). simpl. now rewrite Hf.
  - destruct (g x); simpl; [now rewrite Hf | assumption].
Qed.

(** The merge of lines 59-65 on any pair of answers: a story carries the
    first delivered profile whose [user_id] is its [author_id], and no
    profile when none matches or none was delivered. *)
Lemma storiesWithAuthors_merge (rows : list StoryRow) (ps : option (list Profile)) :
  Forall (fun s =>
            match profiles s with
            | Some p =>
                user_id p = author_id (row s)
                /\ exists l, ps = Some l /\ In p l
            | None =>
                forall l p, ps = Some l -> In p l ->
                            user_id p <> author_id (row s)
            end)
         (storiesWithAuthors (Some rows) ps).
Proof.
  unfold storiesWithAuthors. apply Forall_forall. intros s Hs.
  apply in_map_iff in Hs. destruct Hs as [r [<- _]]. simpl.
  destruct ps as [l|].
  - destruct (find _ l) as [p|] eqn:Hf.
    + apply find_some in Hf. destruct Hf as [Hin Heq].
      apply String.eqb_eq in Heq. split; [assumption | now exists l].
    + intros l' p [= <-] Hin Heq.
      apply (find_none _ _ Hf) in Hin. apply String.eqb_neq in Hin. contradiction.
  - intros l p [=].
Qed.

(** C7: when the story query succeeds, [fetchStories] makes exactly one
    more request, the profile select keyed by the author identifiers of
    the delivered rows, and stores those rows; when the profile select
    succeeds every story carries the first profile of the table whose
    [user_id] equals its [author_id] (none if there is no such profile);
    when it fails the failure is put on the console and nothing else
    happens on its account: the fetch completes, the error message is
    untouched and every story carries no profile. *)
Theorem fetchStories_profile_join (w : World) :
  fault w (calls w) = None ->
  requests (trace (snd (fetchStories w))) =
    requests (trace w) ++
      [ ReqSelectStories published;
        ReqSelectProfiles
          (map author_id (select_stories published (store w))) ]
  /\ map row (st_stories (snd (fetchStories w))) =
       select_stories published (store w)
  /\ match fault w (S (calls w)) with
     | None =>
         Forall (fun s =>
                   profiles s =
                     find (fun p => String.eqb (user_id p) (author_id (row s)))
                          (profiles_tbl (store w))
                   /\ forall p, profiles s = Some p ->
                                user_id p = author_id (row s))
                (st_stories (snd (fetchStories w)))
     | Some e =>
         fetchStories w =
           (Returned tt,
            fetch_done [EvConsoleWarn "Error fetching profiles:" e] None w)
         /\ st_error (snd (fetchStories w)) = st_error w
         /\ Forall (fun s => profiles s = None)
                   (st_stories (snd (fetchStories w)))
     end.
Proof.
  intros H1. destruct (fault w (S (calls w))) as [e|] eqn:H2.
  - rewrite (fetchStories_without_profiles w e H1 H2). simpl.
    rewrite !requests_app. simpl. rewrite ?app_nil_r.
    split; [reflexivity|]. split; [exact (storiesWithAuthors_rows _ None)|].
    split; [reflexivity|]. split; [reflexivity|].
    apply Forall_forall. intros s Hs. apply in_map_iff in Hs.
    now destruct Hs as [r [<- _]].
  - rewrite (fetchStories_done w H1 H2). simpl.
    rewrite !requests_app. simpl. rewrite ?app_nil_r.
    split; [reflexivity|]. split; [exact (storiesWithAuthors_rows _ (Some _))|].
    apply Forall_forall. intros s Hs.
    pose proof (storiesWithAuthors_merge
                  (select_stories published (store w))
                  (Some (select_profiles
                           (map author_id (select_stories published (store w)))
                           (store w)))) as Hm.
    rewrite Forall_forall in Hm. specialize (Hm s Hs).
    apply in_map_iff in Hs. destruct Hs as [r [<- Hr]]. simpl in *.
    split.
    + unfold select_profiles. apply find_filter.
      intros p Hp. apply String.eqb_eq in Hp.
      apply existsb_exists. exists (author_id r). split.
      * now apply in_map.
      * now apply String.eqb_eq.
    + intros p Hp. rewrite Hp in Hm. now destruct Hm.
Qed.

Lemma fetchStories_profile_join_witness :
  requests (trace (snd (fetchStories (world_loaded no_fault)))) =
    [ ReqSelectStories published; ReqSelectProfiles ["alice"] ]
  /\ st_stories (snd (fetchStories (world_loaded no_fault))) =
       [ {| row := alice_novel; profiles := Some alice_profile |} ]
  /\ st_stories (snd (fetchStories (world_loaded (fault_at 1 refused)))) =
       [ {| row := alice_novel; profiles := None |} ].
Proof.
  pose proof (fetchStories_profile_join (world_loaded no_fault) eq_refl) as Ha.
  pose proof (fetchStories_profile_join (world_loaded (fault_at 1 refused)) eq_refl)
    as Hb.
  destruct Ha as [Ha _]. destruct Hb as [_ _].
  split; [exact Ha|]. split; reflexivity.
Defined.

(* ===================================================================== *)
(** ** C1: what mounting [ManageStories] fetches *)
(* ===================================================================== *)

Lemma fetchUserStories_undefined :
  prop "fetchUserStories" useStories_return = None.
Proof. reflexivity. Qed.

Lemma ManageStories_mount_eq (w : World) :
  ManageStories_mount w =
    (Thrown (typeError "fetchUserStories is not a function"),
     snd (fetchStories w)).
Proof.
  unfold ManageStories_mount, useStories_effect, ManageStories_effect, bind.
  pose proof (fetchStories_returns w) as H.
  destruct (fetchStories w) as [o w']. simpl in *. now rewrite H.
Qed.

(** Whatever the store holds and however it answers, the collection after
    the mount holds published stories only. *)
Lemma ManageStories_mount_published (s : Store) (f : nat -> option ErrVal)
    (m : nat -> string * string) :
  Forall (fun st => status (row st) = published)
         (st_stories (snd (ManageStories_mount (useStories_init s f m)))).
Proof.
  rewrite ManageStories_mount_eq. simpl.
  set (w := useStories_init s f m).
  destruct (fault w (calls w)) as [e|] eqn:H1.
  - rewrite (fetchStories_failed w e H1). constructor.
  - apply Forall_forall. intros st Hst.
    assert (Hin : In (row st) (select_stories published (store w))).
    { rewrite <- (fetchStories_rows w H1). now apply in_map. }
    now apply select_stories_In in Hin.
Qed.

(** C1 at a store that holds one draft of the signed-in user and answers
    every request: the mount issues the published-only story query and
    the profile query, the call of the missing [fetchUserStories] member
    throws, and the draft is neither in the collection nor in the visible
    list. *)
Theorem ManageStories_mount_misses_draft :
  In alice_draft (stories_tbl store_draft_only)
  /\ author_id alice_draft = uid alice
  /\ status alice_draft = draft
  /\ fst (ManageStories_mount (useStories_init store_draft_only no_fault mint_sample))
       = Thrown (typeError "fetchUserStories is not a function")
  /\ requests (trace (snd (ManageStories_mount
                 (useStories_init store_draft_only no_fault mint_sample))))
       = [ ReqSelectStories published; ReqSelectProfiles [] ]
  /\ st_stories (snd (ManageStories_mount
                 (useStories_init store_draft_only no_fault mint_sample))) = []
  /\ visibleStories (Some alice) ManageStories_init
       (snd (ManageStories_mount
               (useStories_init store_draft_only no_fault mint_sample))) = [].
Proof.
  repeat split; try reflexivity. now left.
Qed.

(* ===================================================================== *)
(** ** The three mutations, case by case *)
(* ===================================================================== *)

Lemma updateStory_write_failed (key : string) (u : StoryUpdates) (w : World)
    (e : ErrVal) :
  fault w (calls w) = Some e ->
  updateStory key u w =
    (Thrown e, write_failed (ReqUpdateStory key u) "Failed to update story" e w).
Proof.
  intros H. run_hook. rewrite H. simpl. unfold write_failed.
  now rewrite <- app_assoc.
Qed.

Lemma deleteStory_write_failed (key : string) (w : World) (e : ErrVal) :
  fault w (calls w) = Some e ->
  deleteStory key w =
    (Thrown e, write_failed (ReqDeleteStory key) "Failed to delete story" e w).
Proof.
  intros H. run_hook. rewrite H. simpl. unfold write_failed.
  now rewrite <- app_assoc.
Qed.

Lemma createStory_write_failed (d : StoryData) (w : World) (e : ErrVal) :
  fault w (calls w) = Some e ->
  createStory d w =
    (Thrown e,
     write_failed (ReqInsertStory (create_payload d)) "Failed to create story" e w).
Proof.
  intros H. run_hook. rewrite H. simpl. unfold write_failed.
  now rewrite <- app_assoc.
Qed.

Lemma updateStory_written (key : string) (u : StoryUpdates) (w : World) :
  fault w (calls w) = None ->
  updateStory key u w =
    fetchStories (answered (ReqUpdateStory key u) (update_story key u (store w)) w).
Proof.
  intros H. unfold updateStory, try_catch, bind, remote. rewrite H. simpl.
  pose proof (fetchStories_returns
    (answered (ReqUpdateStory key u) (update_story key u (store w)) w)) as Hr.
  destruct (fetchStories _) as [o w']. simpl in Hr. now rewrite Hr.
Qed.

Lemma deleteStory_written (key : string) (w : World) :
  fault w (calls w) = None ->
  deleteStory key w =
    fetchStories (answered (ReqDeleteStory key) (delete_story key (store w)) w).
Proof.
  intros H. unfold deleteStory, try_catch, bind, remote. rewrite H. simpl.
  pose proof (fetchStories_returns
    (answered (ReqDeleteStory key) (delete_story key (store w)) w)) as Hr.
  destruct (fetchStories _) as [o w']. simpl in Hr. now rewrite Hr.
Qed.

Lemma createStory_written (d : StoryData) (w : World) :
  fault w (calls w) = None ->
  createStory d w =
    (Returned (Some (created d w)), snd (fetchStories (before_refetch d w))).
Proof.
  intros H. unfold createStory, try_catch, bind, remote. rewrite H. simpl.
  unfold before_refetch, after_insert, created, create_payload.
  destruct (sd_tags d) as [[|t ts]|]; simpl.
  - pose proof (fetchStories_returns
      (answered (ReqInsertStory (create_payload d))
         (insert_story (created d w) (store w)) w)) as Hr.
    unfold created, create_payload in Hr.
    destruct (fetchStories _) as [o w']. simpl in Hr. now rewrite Hr.
  - destruct (fault w (S (calls w))) as [e|]; simpl;
      match goal with
      | |- context [fetchStories ?x] =>
          pose proof (fetchStories_returns x) as Hr;
          destruct (fetchStories x) as [o w']; simpl in Hr; now rewrite Hr
      end.
  - pose proof (fetchStories_returns
      (answered (ReqInsertStory (create_payload d))
         (insert_story (created d w) (store w)) w)) as Hr.
    unfold created, create_payload in Hr.
    destruct (fetchStories _) as [o w']. simpl in Hr. now rewrite Hr.
Qed.

Lemma before_refetch_state (d : StoryData) (w : World) :
  st_stories (before_refetch d w) = st_stories w
  /\ st_error (before_refetch d w) = st_error w.
Proof.
  unfold before_refetch. destruct (sd_tags d) as [[|t ts]|]; now split.
Qed.

Lemma before_refetch_fault (d : StoryData) (w : World) :
  fault (before_refetch d w) = fault w.
Proof.
  unfold before_refetch. now destruct (sd_tags d) as [[|t ts]|].
Qed.

Lemma fetchStories_in_sync (w : World) :
  fault w (calls w) = None -> in_sync (snd (fetchStories w)).
Proof.
  intros H. unfold in_sync. rewrite fetchStories_store.
  now apply fetchStories_rows.
Qed.

(* ===================================================================== *)
(** ** C3: what happens to a failed remote call of a mutation *)
(* ===================================================================== *)

(** C3, as the code has it: when the write of a mutation (the story
    insert of create, the update, the delete) is refused, the error is
    caught, recorded in the error state as a string and thrown on to the
    caller, with the collection and the store untouched and no further
    request made. When the write succeeds and the story query of the
    re-fetch is refused, that failure is recorded by the fetch and not
    thrown on: the mutation resolves, and the collection is as before.
    The story query of the re-fetch is the call after the write; for
    [createStory] with tags it is the call after the tag insert. *)
Theorem mutation_failure_policy (d : StoryData) (key : string)
    (u : StoryUpdates) (w : World) :
  (forall e, fault w (calls w) = Some e ->
     rethrown_and_recorded (createStory d w)
       (ReqInsertStory (create_payload d)) "Failed to create story" e w
     /\ rethrown_and_recorded (updateStory key u w)
          (ReqUpdateStory key u) "Failed to update story" e w
     /\ rethrown_and_recorded (deleteStory key w)
          (ReqDeleteStory key) "Failed to delete story" e w)
  /\ (forall e, fault w (calls w) = None -> fault w (S (calls w)) = Some e ->
        refetch_failure_absorbed (updateStory key u w) e w
        /\ refetch_failure_absorbed (deleteStory key w) e w)
  /\ (forall e, fault w (calls w) = None ->
        fault w (calls (before_refetch d w)) = Some e ->
        refetch_failure_absorbed (createStory d w) e w)
  /\ calls (before_refetch d w) =
       (if has_tags d then S (S (calls w)) else S (calls w)).
Proof.
  split; [|split; [|split]].
  - intros e H.
    rewrite (createStory_write_failed d w e H),
            (updateStory_write_failed key u w e H),
            (deleteStory_write_failed key w e H).
    unfold rethrown_and_recorded. simpl. rewrite !requests_app. simpl.
    repeat split; reflexivity.
  - intros e H0 H1.
    rewrite (updateStory_written key u w H0), (deleteStory_written key w H0).
    unfold refetch_failure_absorbed, resolved.
    rewrite !fetchStories_failed with (e := e) by exact H1.
    simpl. repeat split.
  - intros e H0 H1.
    rewrite (createStory_written d w H0).
    rewrite <- (before_refetch_fault d w) in H1.
    unfold refetch_failure_absorbed, resolved.
    rewrite (fetchStories_failed _ e H1). simpl.
    destruct (before_refetch_state d w) as [Hs _].
    repeat split. exact Hs.
  - unfold before_refetch, has_tags.
    now destruct (sd_tags d) as [[|t ts]|].
Qed.

Lemma mutation_failure_policy_witness :
  rethrown_and_recorded
    (deleteStory "s2" (world_loaded (fault_at 0 refused)))
    (ReqDeleteStory "s2") "Failed to delete story" refused
    (world_loaded (fault_at 0 refused))
  /\ refetch_failure_absorbed
       (updateStory "s2" no_updates (world_loaded (fault_at 1 refused)))
       refused (world_loaded (fault_at 1 refused))
  /\ refetch_failure_absorbed
       (createStory (sample_story_data (Some ["essay"]))
          (world_loaded (fault_at 2 refused)))
       refused (world_loaded (fault_at 2 refused)).
Proof.
  split; [|split].
  - apply (mutation_failure_policy (sample_story_data None) "s2" no_updates
             (world_loaded (fault_at 0 refused))).
    reflexivity.
  - apply (mutation_failure_policy (sample_story_data None) "s2" no_updates
             (world_loaded (fault_at 1 refused)));
      reflexivity.
  - apply (mutation_failure_policy (sample_story_data (Some ["essay"])) "s2"
             no_updates (world_loaded (fault_at 2 refused)));
      reflexivity.
Defined.

(** The update is written, the story query of the re-fetch is refused:
    the failure reaches the error state but not the caller. *)
Lemma updateStory_refetch_failure_not_rethrown :
  fault (world_loaded (fault_at 1 refused)) 1 = Some refused
  /\ requests (trace (snd (updateStory "s2" (status_only draft)
                             (world_loaded (fault_at 1 refused)))))
       = [ ReqUpdateStory "s2" (status_only draft); ReqSelectStories published ]
  /\ st_error (snd (updateStory "s2" (status_only draft)
                      (world_loaded (fault_at 1 refused))))
       = Some "Failed to fetch stories"
  /\ fst (updateStory "s2" (status_only draft)
            (world_loaded (fault_at 1 refused))) = Returned tt
  /\ forall e, fst (updateStory "s2" (status_only draft)
                      (world_loaded (fault_at 1 refused))) <> Thrown e.
Proof.
  repeat split; try reflexivity. intros e. discriminate.
Qed.

(** The story is inserted and the tag insert is refused: the error object
    of the tag insert is dropped, the story is returned and the error
    state stays empty, while the store holds the story without its tags. *)
Lemma createStory_tag_failure_dropped :
  fault (world_loaded (fault_at 1 refused)) 1 = Some refused
  /\ requests (trace (snd (createStory (sample_story_data (Some ["essay"]))
                             (world_loaded (fault_at 1 refused)))))
       = [ ReqInsertStory (create_payload (sample_story_data (Some ["essay"])));
           ReqInsertTags [ {| story_id := "story-new"; tag := "essay" |} ];
           ReqSelectStories published;
           ReqSelectProfiles ["alice"] ]
  /\ (exists r, fst (createStory (sample_story_data (Some ["essay"]))
                       (world_loaded (fault_at 1 refused)))
                = Returned (Some r) /\ id r = "story-new")
  /\ st_error (snd (createStory (sample_story_data (Some ["essay"]))
                      (world_loaded (fault_at 1 refused)))) = None
  /\ story_tags_tbl (store (snd (createStory (sample_story_data (Some ["essay"]))
                                   (world_loaded (fault_at 1 refused))))) = [].
Proof.
  repeat split; try reflexivity. eexists. split; reflexivity.
Qed.

(* ===================================================================== *)
(** ** C4: the fetch after a mutation *)
(* ===================================================================== *)

(** C4, as the code has it: a mutation whose write succeeds ends by
    running [fetchStories] on the world the write left ([createStory]
    after its tag insert, if any), and resolves; [createStory] returns
    the created row, whose status is [draft] and which is in the store.
    When the story query of that fetch succeeds, the collection holds
    exactly the rows the store answers that query with; when it is
    refused, the mutation resolves all the same and the collection is
    the one from before the mutation. *)
Theorem mutation_then_fetch (d : StoryData) (key : string)
    (u : StoryUpdates) (w : World) :
  fault w (calls w) = None ->
  (updateStory key u w =
     fetchStories
       (answered (ReqUpdateStory key u) (update_story key u (store w)) w)
   /\ store (snd (updateStory key u w)) = update_story key u (store w)
   /\ fst (updateStory key u w) = Returned tt
   /\ (fault w (S (calls w)) = None -> in_sync (snd (updateStory key u w)))
   /\ (forall e, fault w (S (calls w)) = Some e ->
       st_stories (snd (updateStory key u w)) = st_stories w))
  /\ (deleteStory key w =
        fetchStories
          (answered (ReqDeleteStory key) (delete_story key (store w)) w)
      /\ store (snd (deleteStory key w)) = delete_story key (store w)
      /\ fst (deleteStory key w) = Returned tt
      /\ (fault w (S (calls w)) = None -> in_sync (snd (deleteStory key w)))
      /\ (forall e, fault w (S (calls w)) = Some e ->
          st_stories (snd (deleteStory key w)) = st_stories w))
  /\ (createStory d w =
        (Returned (Some (created d w)), snd (fetchStories (before_refetch d w)))
      /\ status (created d w) = draft
      /\ In (created d w) (stories_tbl (store (snd (createStory d w))))
      /\ (fault w (calls (before_refetch d w)) = None ->
          in_sync (snd (createStory d w)))
      /\ (forall e, fault w (calls (before_refetch d w)) = Some e ->
          st_stories (snd (createStory d w)) = st_stories w)).
Proof.
  intros H0. split; [|split].
  - rewrite (updateStory_written key u w H0). split; [reflexivity|].
    split; [now rewrite fetchStories_store|].
    split; [apply fetchStories_returns|]. split.
    + intros H1. now apply fetchStories_in_sync.
    + intros e H1. now rewrite (fetchStories_failed (answered _ _ w) e H1).
  - rewrite (deleteStory_written key w H0). split; [reflexivity|].
    split; [now rewrite fetchStories_store|].
    split; [apply fetchStories_returns|]. split.
    + intros H1. now apply fetchStories_in_sync.
    + intros e H1. now rewrite (fetchStories_failed (answered _ _ w) e H1).
  - rewrite (createStory_written d w H0). split; [reflexivity|].
    split; [reflexivity|]. simpl. split; [|split].
    + rewrite fetchStories_store. unfold before_refetch.
      destruct (sd_tags d) as [[|t ts]|]; simpl;
        try (apply in_or_app; right; now left).
      destruct (fault w (S (calls w))); simpl;
        apply in_or_app; right; now left.
    + intros H1. apply fetchStories_in_sync.
      now rewrite before_refetch_fault.
    + intros e H1. rewrite <- (before_refetch_fault d w) in H1.
      rewrite (fetchStories_failed _ e H1). simpl.
      now destruct (before_refetch_state d w).
Qed.

Lemma mutation_then_fetch_witness :
  in_sync (snd (deleteStory "s2" (world_loaded no_fault)))
  /\ st_stories (snd (deleteStory "s2" (world_loaded no_fault))) = []
  /\ status (created (sample_story_data (Some ["essay"])) (world_loaded no_fault))
       = draft
  /\ st_stories (snd (deleteStory "s2" (world_loaded (fault_at 1 refused)))) =
       st_stories (world_loaded (fault_at 1 refused)).
Proof.
  pose proof (mutation_then_fetch (sample_story_data (Some ["essay"])) "s2"
                no_updates (world_loaded no_fault) eq_refl)
    as [_ [[_ [_ [_ [Hd _]]]] [_ [Hc _]]]].
  pose proof (mutation_then_fetch (sample_story_data (Some ["essay"])) "s2"
                no_updates (world_loaded (fault_at 1 refused)) eq_refl)
    as [_ [[_ [_ [_ [_ Hf]]]] _]].
  split; [exact (Hd eq_refl)|]. split; [reflexivity|].
  split; [exact Hc | exact (Hf refused eq_refl)].
Defined.

(** The delete is written, the story query of the re-fetch is refused:
    the mutation resolves while the collection still shows the deleted
    story. *)
Lemma deleteStory_refetch_failure_out_of_sync :
  fault (world_loaded (fault_at 1 refused)) 0 = None
  /\ fst (deleteStory "s2" (world_loaded (fault_at 1 refused))) = Returned tt
  /\ requests (trace (snd (deleteStory "s2" (world_loaded (fault_at 1 refused)))))
       = [ ReqDeleteStory "s2"; ReqSelectStories published ]
  /\ map row (st_stories (snd (deleteStory "s2"
                                 (world_loaded (fault_at 1 refused)))))
       = [alice_novel]
  /\ select_stories published
       (store (snd (deleteStory "s2" (world_loaded (fault_at 1 refused))))) = []
  /\ ~ in_sync (snd (deleteStory "s2" (world_loaded (fault_at 1 refused)))).
Proof.
  repeat split; try reflexivity. unfold in_sync. simpl. discriminate.
Qed.

(* ===================================================================== *)
(** ** C5 and C10: the visible list *)
(* ===================================================================== *)

Lemma status_filter_spec (f : string) (st : Status) :
  String.eqb f "all" || String.eqb (status_str st) f = true
  <-> f = "all" \/ status_str st = f.
Proof.
  rewrite orb_true_iff, !String.eqb_eq. reflexivity.
Qed.

Lemma visibleStories_In (user : option User) (v : ViewState) (w : World)
    (s : Story) :
  In s (visibleStories user v w)
  <-> In s (userStories user (st_stories w))
      /\ includes (toLowerCase (title (row s)))
                  (toLowerCase (searchQuery v)) = true
      /\ (filterStatus v = "all"
          \/ status_str (status (row s)) = filterStatus v).
Proof.
  unfold visibleStories, filteredStories, matches.
  rewrite filter_In, andb_true_iff, status_filter_spec.
  reflexivity.
Qed.











(** C10: every visible story is authored by the signed-in user, and
    without a signed-in user nothing is visible. *)
Theorem visibleStories_owned (user : option User) (v : ViewState) (w : World) :
  Forall (fun s => exists u, user = Some u /\ author_id (row s) = uid u)
         (visibleStories user v w)
  /\ visibleStories None v w = [].
Proof.
  split.
  - apply Forall_forall. intros s Hs.
    apply visibleStories_In in Hs. destruct Hs as [Hs _].
    unfold userStories in Hs. apply filter_In in Hs. destruct Hs as [_ Ha].
    destruct user as [u|]; simpl in Ha; [|discriminate].
    exists u. split; [reflexivity | now apply String.eqb_eq].
  - unfold visibleStories, userStories. simpl.
    induction (st_stories w) as [|x l IH]; simpl; [reflexivity | exact IH].
Qed.

(* ===================================================================== *)
(** ** The requests of a mutation *)
(* ===================================================================== *)

Lemma updateStory_requests (key : string) (u : StoryUpdates) (w : World) :
  exists rest,
    requests (trace (snd (updateStory key u w))) =
      requests (trace w) ++ ReqUpdateStory key u :: rest
    /\ forallb is_select rest = true.
Proof.
  destruct (fault w (calls w)) as [e|] eqn:H.
  - rewrite (updateStory_write_failed key u w e H). simpl.
    rewrite requests_app. simpl. now exists [].
  - rewrite (updateStory_written key u w H).
    destruct (fetchStories_requests
                (answered (ReqUpdateStory key u) (update_story key u (store w)) w))
      as [rest [Hr Hs]].
    rewrite Hr. simpl. rewrite requests_app. simpl. rewrite <- app_assoc. simpl.
    exists (ReqSelectStories published :: rest). split; [reflexivity | exact Hs].
Qed.

Lemma deleteStory_requests (key : string) (w : World) :
  exists rest,
    requests (trace (snd (deleteStory key w))) =
      requests (trace w) ++ ReqDeleteStory key :: rest
    /\ forallb is_select rest = true.
Proof.
  destruct (fault w (calls w)) as [e|] eqn:H.
  - rewrite (deleteStory_write_failed key w e H). simpl.
    rewrite requests_app. simpl. now exists [].
  - rewrite (deleteStory_written key w H).
    destruct (fetchStories_requests
                (answered (ReqDeleteStory key) (delete_story key (store w)) w))
      as [rest [Hr Hs]].
    rewrite Hr. simpl. rewrite requests_app. simpl. rewrite <- app_assoc. simpl.
    exists (ReqSelectStories published :: rest). split; [reflexivity | exact Hs].
Qed.

Lemma deleted_keys_selects (rs : list Request) :
  forallb is_select rs = true -> deleted_keys rs = [].
Proof.
  induction rs as [|r rs IH]; simpl; [reflexivity|].
  intros H. apply andb_true_iff in H. destruct H as [Hr Hrs].
  unfold deleted_keys in *. simpl. rewrite (IH Hrs).
  destruct r; simpl in *; try reflexivity; discriminate.
Qed.

(* ===================================================================== *)
(** ** C6: toggling between published and draft *)
(* ===================================================================== *)

Lemma toggleStatus_run (storyId currentStatus : string) (w : World) :
  (exists rest,
     requests (trace (snd (toggleStatus storyId currentStatus w))) =
       requests (trace w) ++
         ReqUpdateStory storyId (status_only (newStatus currentStatus)) :: rest
     /\ forallb is_select rest = true)
  /\ fst (toggleStatus storyId currentStatus w) = Returned tt.
Proof.
  destruct (updateStory_requests storyId
              (status_only (newStatus currentStatus)) w) as [rest [Hr Hs]].
  unfold toggleStatus, try_catch, bind, toast_success, toast_error, emit.
  destruct (updateStory storyId (status_only (newStatus currentStatus)) w)
    as [[[]|e] w1]; simpl in *.
  - split; [|reflexivity]. exists rest. rewrite requests_app. simpl.
    rewrite app_nil_r. now split.
  - split; [|reflexivity]. exists rest. rewrite requests_app. simpl.
    rewrite app_nil_r. now split.
Qed.

(** C6: [toggleStatus] asks for exactly one update, of the given story,
    whose payload sets the status and nothing else: to [draft] when the
    current status is [published] and to [published] for every other
    current status, [draft] and [archived] included; the status asked
    for is never [archived]; any further request it makes belongs to the
    re-fetch, and it never throws. *)
Theorem toggleStatus_requests (storyId currentStatus : string) (w : World) :
  (exists rest,
     requests (trace (snd (toggleStatus storyId currentStatus w))) =
       requests (trace w) ++
         ReqUpdateStory storyId
           {| u_id := None; u_title := None; u_description := None;
              u_genre := None; u_cover_image_url := None;
              u_author_id := None;
              u_status := Some (newStatus currentStatus);
              u_view_count := None; u_like_count := None;
              u_comment_count := None; u_created_at := None;
              u_updated_at := None |} :: rest
     /\ forallb is_select rest = true)
  /\ fst (toggleStatus storyId currentStatus w) = Returned tt
  /\ ((currentStatus = "published" /\ newStatus currentStatus = draft)
      \/ (currentStatus <> "published" /\ newStatus currentStatus = published))
  /\ newStatus (status_str published) = draft
  /\ newStatus (status_str draft) = published
  /\ newStatus (status_str archived) = published
  /\ newStatus currentStatus <> archived.
Proof.
  destruct (toggleStatus_run storyId currentStatus w) as [Hreq Hret].
  split; [exact Hreq|]. split; [exact Hret|].
  unfold newStatus. split.
  - destruct (String.eqb_spec currentStatus "published"); [left | right]; now split.
  - repeat split. destruct (String.eqb currentStatus "published"); discriminate.
Qed.

(* ===================================================================== *)
(** ** C9: the delete flow *)
(* ===================================================================== *)

Lemma run_events_app (a b : list UiEvent) (v : ViewState) (w : World) :
  run_events (a ++ b) v w =
    match run_events a v w with
    | (Returned v', w') => run_events b v' w'
    | (Thrown e, w') => (Thrown e, w')
    end.
Proof.
  revert v w. induction a as [|x a IH]; intros v w; simpl; [reflexivity|].
  unfold bind. destruct (handle x v w) as [[v'|e] w']; [apply IH | reflexivity].
Qed.

(** Clicks on delete and on cancel only move the view state. *)
Lemma run_events_without_confirm (es : list UiEvent) (v : ViewState) (w : World) :
  forallb (fun e => negb (is_confirm e)) es = true ->
  exists v', run_events es v w = (Returned v', w)
             /\ searchQuery v' = searchQuery v
             /\ filterStatus v' = filterStatus v.
Proof.
  revert v. induction es as [|x es IH]; intros v H; simpl.
  - now exists v.
  - simpl in H. apply andb_true_iff in H. destruct H as [Hx Hes].
    destruct x as [sid| |]; simpl in Hx; try discriminate; unfold bind; simpl.
    + destruct (IH (handleDeleteClick sid v) Hes) as [v' [Hr [Hq Hf]]].
      exists v'. now repeat split.
    + destruct (IH (setDeleteDialogOpen false v) Hes) as [v' [Hr [Hq Hf]]].
      exists v'. now repeat split.
Qed.

Lemma confirmDelete_selected (sid : string) (v : ViewState) (w : World) :
  sid <> "" ->
  storyToDelete v = Some sid ->
  remote_deletes (trace (snd (confirmDelete v w))) =
    remote_deletes (trace w) ++ [sid]
  /\ fst (confirmDelete v w) =
       Returned (setStoryToDelete None (setDeleteDialogOpen false v)).
Proof.
  intros Hne Hsel. unfold confirmDelete. rewrite Hsel.
  destruct sid as [|c sid]; [contradiction|]. simpl.
  destruct (deleteStory_requests (String c sid) w) as [rest [Hr Hs]].
  unfold try_catch, bind, toast_success, toast_error, emit, ret.
  destruct (deleteStory (String c sid) w) as [[[]|e] w1]; simpl in *;
    rewrite !remote_deletes_requests, requests_app, Hr; simpl;
    rewrite app_nil_r; unfold deleted_keys; rewrite flat_map_app; simpl;
    fold (deleted_keys rest); rewrite (deleted_keys_selects rest Hs);
    split; reflexivity.
Qed.

(** C9: clicks on delete and on cancel, in any number and order, leave
    the world as it is, so no remote delete and no other remote action is
    made; and when such a sequence is followed by a click on delete for a
    story (one with a non-empty identifier) and a click on confirm, the
    remote delete is requested exactly once more, for that story, and the
    dialog is closed with the selection cleared. *)
Theorem delete_flow (es : list UiEvent) (sid : string) (v : ViewState)
    (w : World) :
  forallb (fun e => negb (is_confirm e)) es = true ->
  sid <> "" ->
  snd (run_events es v w) = w
  /\ snd (run_events (es ++ [DeleteClick sid]) v w) = w
  /\ remote_deletes
       (trace (snd (run_events (es ++ [DeleteClick sid; ConfirmClick]) v w))) =
       remote_deletes (trace w) ++ [sid]
  /\ fst (run_events (es ++ [DeleteClick sid; ConfirmClick]) v w) =
       Returned {| searchQuery := searchQuery v;
                   filterStatus := filterStatus v;
                   deleteDialogOpen := false;
                   storyToDelete := None |}.
Proof.
  intros Hes Hne.
  destruct (run_events_without_confirm es v w Hes) as [v' [Hr [Hq Hf]]].
  rewrite !run_events_app, Hr. simpl. unfold bind. simpl.
  destruct (confirmDelete_selected sid (handleDeleteClick sid v') w Hne eq_refl)
    as [Hd Ho].
  destruct (confirmDelete (handleDeleteClick sid v') w) as [o w1].
  simpl in *. subst o. simpl.
  repeat split; try assumption.
  unfold setStoryToDelete, setDeleteDialogOpen. simpl. now rewrite Hq, Hf.
Qed.

Lemma delete_flow_witness :
  remote_deletes
    (trace (snd (run_events
                   [DeleteClick "s1"; CancelClick; DeleteClick "s2"; ConfirmClick]
                   ManageStories_init (world_loaded no_fault)))) = ["s2"].
Proof.
  apply (delete_flow [DeleteClick "s1"; CancelClick] "s2" ManageStories_init
           (world_loaded no_fault)).
  - reflexivity.
  - discriminate.
Defined.

(** The guard of [confirmDelete]: with no selection, or with the empty
    identifier selected, nothing happens at all. *)
Lemma confirmDelete_nothing_selected (v : ViewState) (w : World) :
  truthy (storyToDelete v) = false ->
  confirmDelete v w = (Returned v, w).
Proof.
  intros H. unfold confirmDelete. now rewrite H.
Qed.

(* ===================================================================== *)
(** ** C8: the reading statistics *)
(* ===================================================================== *)

Lemma progress_or_0_value (r : LibraryPage.Read) :
  LibraryPage.progress_or_0 r = LibraryPage.progress_value r.
Proof.
  unfold LibraryPage.progress_or_0, LibraryPage.progress_value,
    LibraryPage.truthy_number, PrimFloat.is_zero.
  destruct (LibraryPage.progress r) as [p|]; [|reflexivity].
  change PrimFloat.zero with 0%float.
  destruct (PrimFloat.is_nan p); [reflexivity|].
  now destruct (PrimFloat.eqb p 0).
Qed.

Lemma length_filter_count {A : Type} (P : A -> bool) (l : list A) :
  length (filter P l) = LibraryPage.count P l.
Proof.
  induction l as [|x l IH]; simpl; [reflexivity|].
  destruct (P x); simpl; now rewrite IH.
Qed.

Lemma count_ext {A : Type} (P Q : A -> bool) (l : list A) :
  (forall x, P x = Q x) -> LibraryPage.count P l = LibraryPage.count Q l.
Proof.
  intros H. induction l as [|x l IH]; simpl; [reflexivity|].
  now rewrite H, IH.
Qed.

(** C8: [totalSaved] is the number of library items; [currentlyReading]
    the number of reads whose progress, counted as 0 when missing, is
    above 0 and below 100; [completed] the number of reads whose progress
    is at least 100; [totalSlides] is the sum of the progress of all
    reads, added up as doubles from 0 in the order of the list; the first
    depends on the library alone and the other three on the reads alone;
    and on the scenario of one saved story read to 45 the statistics are
    1, 1, 0 and 45. *)
Theorem getReadingStats_spec
    (library library' : list LibraryPage.LibraryItem)
    (reads reads' : list LibraryPage.Read) (r : LibraryPage.Read) :
  LibraryPage.totalSaved (LibraryPage.getReadingStats library reads) =
    Z.of_nat (length library)
  /\ LibraryPage.currentlyReading (LibraryPage.getReadingStats library reads) =
       Z.of_nat (LibraryPage.count
                   (fun x => PrimFloat.ltb 0 (LibraryPage.progress_value x)
                             && PrimFloat.ltb (LibraryPage.progress_value x) 100)
                   reads)
  /\ LibraryPage.completed (LibraryPage.getReadingStats library reads) =
       Z.of_nat (LibraryPage.count
                   (fun x => PrimFloat.leb 100 (LibraryPage.progress_value x))
                   reads)
  /\ LibraryPage.totalSlides (LibraryPage.getReadingStats library []) = 0%float
  /\ LibraryPage.totalSlides
       (LibraryPage.getReadingStats library (reads ++ [r])) =
     PrimFloat.add
       (LibraryPage.totalSlides (LibraryPage.getReadingStats library reads))
       (LibraryPage.progress_value r)
  /\ (LibraryPage.progress r = None ->
      LibraryPage.progress_value r = 0%float)
  /\ (forall p, LibraryPage.progress r = Some p ->
                PrimFloat.is_nan p = false -> PrimFloat.eqb p 0 = false ->
                LibraryPage.progress_value r = p)
  /\ LibraryPage.totalSaved (LibraryPage.getReadingStats library reads') =
       LibraryPage.totalSaved (LibraryPage.getReadingStats library reads)
  /\ LibraryPage.currentlyReading (LibraryPage.getReadingStats library' reads) =
       LibraryPage.currentlyReading (LibraryPage.getReadingStats library reads)
  /\ LibraryPage.completed (LibraryPage.getReadingStats library' reads) =
       LibraryPage.completed (LibraryPage.getReadingStats library reads)
  /\ LibraryPage.totalSlides (LibraryPage.getReadingStats library' reads) =
       LibraryPage.totalSlides (LibraryPage.getReadingStats library reads)
  /\ LibraryPage.getReadingStats library_scenario reads_scenario =
       LibraryPage.mkStats 1 1 0 45%float.
Proof.
  unfold LibraryPage.getReadingStats.
  cbn [LibraryPage.totalSaved LibraryPage.currentlyReading
       LibraryPage.completed LibraryPage.totalSlides].
  split; [reflexivity|]. split.
  { rewrite length_filter_count. f_equal. apply count_ext. intros x.
    now rewrite progress_or_0_value. }
  split.
  { rewrite length_filter_count. f_equal. apply count_ext. intros x.
    now rewrite progress_or_0_value. }
  split; [reflexivity|]. split.
  { rewrite fold_left_app. cbn [fold_left]. now rewrite progress_or_0_value. }
  split.
  { unfold LibraryPage.progress_value. now intros ->. }
  split.
  { unfold LibraryPage.progress_value. intros p -> Hn Hz. now rewrite Hn, Hz. }
  repeat split.
Qed.

(* ===================================================================== *)
(** ** The hook over runs of calls *)
(* ===================================================================== *)

Lemma fetchStories_error (w : World) :
  st_error (snd (fetchStories w)) = st_error w
  \/ exists m, st_error (snd (fetchStories w)) = Some m.
Proof.
  destruct (fetchStories_cases w) as [[e [_ H]] | [warn [ps [_ [H _]]]]];
    rewrite H; simpl; [right; eauto | now left].
Qed.

Lemma run_op_error (o : HookOp) (w : World) :
  st_error (run_op o w) = st_error w
  \/ exists m, st_error (run_op o w) = Some m.
Proof.
  destruct o as [|d|k u|k]; simpl.
  - apply fetchStories_error.
  - destruct (fault w (calls w)) as [e|] eqn:H.
    + rewrite (createStory_write_failed d w e H). right. simpl. eauto.
    + rewrite (createStory_written d w H). simpl.
      destruct (before_refetch_state d w) as [_ He]. rewrite <- He.
      apply fetchStories_error.
  - destruct (fault w (calls w)) as [e|] eqn:H.
    + rewrite (updateStory_write_failed k u w e H). right. simpl. eauto.
    + rewrite (updateStory_written k u w H).
      apply (fetchStories_error (answered _ _ w)).
  - destruct (fault w (calls w)) as [e|] eqn:H.
    + rewrite (deleteStory_write_failed k w e H). right. simpl. eauto.
    + rewrite (deleteStory_written k w H).
      apply (fetchStories_error (answered _ _ w)).
Qed.

(** X1: once an error message is set, no run of fetches, creates, updates
    and deletes brings the error state back to null, whatever the store
    answers. *)
Theorem error_never_cleared (os : list HookOp) (w : World) (m : string) :
  st_error w = Some m ->
  exists m', st_error (run_ops os w) = Some m'.
Proof.
  revert w m. induction os as [|o os IH]; intros w m H; simpl.
  - now exists m.
  - destruct (run_op_error o w) as [He | [m' He]].
    + apply (IH _ m). now rewrite He.
    + now apply (IH _ m').
Qed.

Lemma error_never_cleared_witness :
  exists m', st_error (run_ops [OpFetch; OpDelete "s2"; OpFetch] world_stale_error)
             = Some m'.
Proof.
  apply (error_never_cleared _ world_stale_error "Failed to fetch stories").
  reflexivity.
Defined.

Lemma fetchStories_all_published (w : World) :
  all_published w -> all_published (snd (fetchStories w)).
Proof.
  intros Hw. unfold all_published.
  destruct (fault w (calls w)) as [e|] eqn:H1.
  - now rewrite (fetchStories_failed w e H1).
  - apply Forall_forall. intros st Hst.
    assert (Hin : In (row st) (select_stories published (store w))).
    { rewrite <- (fetchStories_rows w H1). now apply in_map. }
    now apply select_stories_In in Hin.
Qed.

Lemma run_op_all_published (o : HookOp) (w : World) :
  all_published w -> all_published (run_op o w).
Proof.
  intros Hw. destruct o as [|d|k u|k]; simpl.
  - now apply fetchStories_all_published.
  - destruct (fault w (calls w)) as [e|] eqn:H.
    + now rewrite (createStory_write_failed d w e H).
    + rewrite (createStory_written d w H). simpl.
      apply fetchStories_all_published. unfold all_published.
      destruct (before_refetch_state d w) as [Hs _]. now rewrite Hs.
  - destruct (fault w (calls w)) as [e|] eqn:H.
    + now rewrite (updateStory_write_failed k u w e H).
    + rewrite (updateStory_written k u w H).
      now apply fetchStories_all_published.
  - destruct (fault w (calls w)) as [e|] eqn:H.
    + now rewrite (deleteStory_write_failed k w e H).
    + rewrite (deleteStory_written k w H).
      now apply fetchStories_all_published.
Qed.

Lemma run_ops_all_published (os : list HookOp) (w : World) :
  all_published w -> all_published (run_ops os w).
Proof.
  revert w. induction os as [|o os IH]; intros w H; simpl; [exact H|].
  apply IH. now apply run_op_all_published.
Qed.

Lemma filter_nothing {A : Type} (P : A -> bool) (l : list A) :
  (forall x, In x l -> P x = false) -> filter P l = [].
Proof.
  induction l as [|x l IH]; intros H; simpl; [reflexivity|].
  rewrite (H x (or_introl eq_refl)). apply IH. intros y Hy. apply H. now right.
Qed.

(** X2: from the state the hook starts in, after any run of fetches,
    creates, updates and deletes and whatever the store answers, the
    collection holds published stories only; so the "draft" and the
    "archived" filter of [ManageStories] show an empty list. *)
Theorem collection_only_published (s : Store) (f : nat -> option ErrVal)
    (m : nat -> string * string) (os : list HookOp)
    (user : option User) (v : ViewState) :
  all_published (run_ops os (useStories_init s f m))
  /\ visibleStories user (setFilterStatus "draft" v)
       (run_ops os (useStories_init s f m)) = []
  /\ visibleStories user (setFilterStatus "archived" v)
       (run_ops os (useStories_init s f m)) = [].
Proof.
  assert (Hp : all_published (run_ops os (useStories_init s f m))).
  { apply run_ops_all_published. constructor. }
  split; [exact Hp|].
  unfold all_published in Hp. rewrite Forall_forall in Hp.
  split; unfold visibleStories, filteredStories; apply filter_nothing;
    intros x Hx; unfold userStories in Hx; apply filter_In in Hx;
    destruct Hx as [Hx _]; unfold matches; simpl;
    rewrite (Hp x Hx); simpl; apply andb_false_r.
Qed.

(* ===================================================================== *)
(** ** What a successful mutation does to the collection *)
(* ===================================================================== *)

Lemma collection_rows_In (w : World) (s : Story) (rows : list StoryRow) :
  map row (st_stories w) = rows -> In s (st_stories w) -> In (row s) rows.
Proof.
  intros <- H. now apply in_map.
Qed.

(** X3: when the delete and the story query of its re-fetch both succeed,
    no story with the deleted identifier is left in the collection. *)
Theorem deleteStory_removes (key : string) (w : World) :
  fault w (calls w) = None ->
  fault w (S (calls w)) = None ->
  Forall (fun s => id (row s) <> key) (st_stories (snd (deleteStory key w))).
Proof.
  intros H0 H1. rewrite (deleteStory_written key w H0).
  apply Forall_forall. intros s Hs.
  eapply collection_rows_In in Hs;
    [| apply (fetchStories_rows (answered _ _ w)); exact H1].
  apply select_stories_In in Hs. destruct Hs as [Hs _]. simpl in Hs.
  apply filter_In in Hs. destruct Hs as [_ Hs].
  apply negb_true_iff in Hs. now apply String.eqb_neq in Hs.
Qed.

Lemma deleteStory_removes_witness :
  Forall (fun s => id (row s) <> "s2")
         (st_stories (snd (deleteStory "s2" (world_loaded no_fault)))).
Proof.
  apply (deleteStory_removes "s2" (world_loaded no_fault)); reflexivity.
Defined.

(** X4: when the story insert and the story query of the re-fetch both
    succeed, the story [createStory] returns is in the store but not in
    the collection: it is a draft, and the fetch asks for published
    stories. *)
Theorem createStory_not_listed (d : StoryData) (w : World) :
  fault w (calls w) = None ->
  fault w (calls (before_refetch d w)) = None ->
  fst (createStory d w) = Returned (Some (created d w))
  /\ In (created d w) (stories_tbl (store (snd (createStory d w))))
  /\ ~ In (created d w) (map row (st_stories (snd (createStory d w)))).
Proof.
  intros H0 H1. rewrite (createStory_written d w H0). simpl.
  split; [reflexivity|]. split.
  - rewrite fetchStories_store. unfold before_refetch.
    destruct (sd_tags d) as [[|t ts]|]; simpl;
      try (apply in_or_app; right; now left).
    destruct (fault w (S (calls w))); simpl; apply in_or_app; right; now left.
  - rewrite <- (before_refetch_fault d w) in H1.
    rewrite (fetchStories_rows _ H1). intros Hin.
    apply select_stories_In in Hin. destruct Hin as [_ Hst]. discriminate Hst.
Qed.

Lemma createStory_not_listed_witness :
  ~ In (created (sample_story_data (Some ["essay"])) (world_loaded no_fault))
       (map row (st_stories
                   (snd (createStory (sample_story_data (Some ["essay"]))
                           (world_loaded no_fault))))).
Proof.
  apply (createStory_not_listed (sample_story_data (Some ["essay"]))
           (world_loaded no_fault)); reflexivity.
Defined.

Lemma toggleStatus_state (storyId currentStatus : string) (w : World) :
  st_stories (snd (toggleStatus storyId currentStatus w)) =
    st_stories (snd (updateStory storyId
                       (status_only (newStatus currentStatus)) w)).
Proof.
  unfold toggleStatus, try_catch, bind, toast_success, toast_error, emit.
  now destruct (updateStory storyId (status_only (newStatus currentStatus)) w)
    as [[[]|e] w1].
Qed.

(** X5: when the update and the story query of its re-fetch both succeed,
    [toggleStatus] on a published story leaves no story with that
    identifier in the collection. *)
Theorem toggleStatus_unpublish_unlists (storyId : string) (w : World) :
  fault w (calls w) = None ->
  fault w (S (calls w)) = None ->
  Forall (fun s => id (row s) <> storyId)
         (st_stories (snd (toggleStatus storyId "published" w))).
Proof.
  intros H0 H1. rewrite toggleStatus_state.
  change (newStatus "published") with draft.
  rewrite (updateStory_written storyId (status_only draft) w H0).
  apply Forall_forall. intros s Hs.
  eapply collection_rows_In in Hs;
    [| apply (fetchStories_rows (answered _ _ w)); exact H1].
  apply select_stories_In in Hs. destruct Hs as [Hs Hst]. simpl in Hs.
  apply in_map_iff in Hs. destruct Hs as [r [Hr _]].
  destruct (String.eqb_spec (id r) storyId) as [He|Hne].
  - rewrite <- Hr in Hst. discriminate Hst.
  - now rewrite <- Hr.
Qed.

Lemma toggleStatus_unpublish_unlists_witness :
  Forall (fun s => id (row s) <> "s2")
         (st_stories (snd (toggleStatus "s2" "published" (world_loaded no_fault)))).
Proof.
  apply (toggleStatus_unpublish_unlists "s2" (world_loaded no_fault));
    reflexivity.
Defined.

(** X6: when the update and the story query of its re-fetch both succeed,
    [toggleStatus] on a story that is not published puts every row of the
    store with that identifier into the collection, as a published story
    and otherwise unchanged. *)
Theorem toggleStatus_publish_lists (storyId currentStatus : string)
    (w : World) (r : StoryRow) :
  currentStatus <> "published" ->
  fault w (calls w) = None ->
  fault w (S (calls w)) = None ->
  In r (stories_tbl (store w)) ->
  id r = storyId ->
  In (apply_updates (status_only published) r)
     (map row (st_stories (snd (toggleStatus storyId currentStatus w))))
  /\ status (apply_updates (status_only published) r) = published
  /\ id (apply_updates (status_only published) r) = storyId
  /\ title (apply_updates (status_only published) r) = title r.
Proof.
  intros Hc H0 H1 Hr Hid. split; [|now repeat split].
  rewrite toggleStatus_state. unfold newStatus.
  apply String.eqb_neq in Hc. rewrite Hc.
  rewrite (updateStory_written storyId (status_only published) w H0).
  rewrite (fetchStories_rows (answered _ _ w) H1).
  apply select_stories_In. split; [|reflexivity]. simpl.
  apply in_map_iff. exists r. split; [|exact Hr].
  apply String.eqb_eq in Hid. now rewrite Hid.
Qed.

Lemma toggleStatus_publish_lists_witness :
  In (apply_updates (status_only published) alice_draft)
     (map row (st_stories
                 (snd (toggleStatus "s1" "draft"
                         (useStories_init store_draft_only no_fault
                            mint_sample))))).
Proof.
  apply (toggleStatus_publish_lists "s1" "draft"
           (useStories_init store_draft_only no_fault mint_sample) alice_draft).
  - discriminate.
  - reflexivity.
  - reflexivity.
  - now left.
  - reflexivity.
Defined.

(* ===================================================================== *)
(** ** Fetching again, and the profiles of one author *)
(* ===================================================================== *)

(** X7: a fetch whose two queries succeed leaves a collection that the
    store alone determines: the collection, the flags and the error
    message it started from play no part, and the store is left as it
    was. So a second such fetch changes nothing. *)
Theorem fetchStories_determined_by_store (w1 w2 : World) :
  store w1 = store w2 ->
  fault w1 (calls w1) = None -> fault w1 (S (calls w1)) = None ->
  fault w2 (calls w2) = None -> fault w2 (S (calls w2)) = None ->
  st_stories (snd (fetchStories w1)) = st_stories (snd (fetchStories w2))
  /\ store (snd (fetchStories w1)) = store w1
  /\ (fault w1 (S (S (calls w1))) = None ->
      fault w1 (S (S (S (calls w1)))) = None ->
      st_stories (snd (fetchStories (snd (fetchStories w1)))) =
        st_stories (snd (fetchStories w1))).
Proof.
  intros Hs A1 A2 B1 B2.
  rewrite (fetchStories_done w1 A1 A2), (fetchStories_done w2 B1 B2). simpl.
  rewrite Hs. split; [reflexivity|]. split; [reflexivity|].
  intros C1 C2.
  rewrite (fetchStories_done (fetch_done _ _ w1) C1 C2). simpl.
  now rewrite Hs.
Qed.

Lemma fetchStories_determined_by_store_witness :
  st_stories (snd (fetchStories world_stale_error)) =
    st_stories (snd (fetchStories (world_loaded no_fault)))
  /\ st_stories (snd (fetchStories (snd (fetchStories world_stale_error)))) =
       st_stories (snd (fetchStories world_stale_error)).
Proof.
  pose proof (fetchStories_determined_by_store world_stale_error
                (world_loaded no_fault) eq_refl eq_refl eq_refl eq_refl eq_refl)
    as [H1 [_ H2]].
  split; [exact H1 | exact (H2 eq_refl eq_refl)].
Defined.

(** X8: in the collection one merge produces, two stories of the same
    author carry the same profile. *)
Theorem storiesWithAuthors_same_author (storiesData : option (list StoryRow))
    (profilesData : option (list Profile)) (s1 s2 : Story) :
  In s1 (storiesWithAuthors storiesData profilesData) ->
  In s2 (storiesWithAuthors storiesData profilesData) ->
  author_id (row s1) = author_id (row s2) ->
  profiles s1 = profiles s2.
Proof.
  unfold storiesWithAuthors. destruct storiesData as [rows|]; [|intros []].
  intros H1 H2 Ha.
  apply in_map_iff in H1. destruct H1 as [r1 [<- _]].
  apply in_map_iff in H2. destruct H2 as [r2 [<- _]].
  simpl in *. now rewrite Ha.
Qed.

Lemma storiesWithAuthors_same_author_witness :
  profiles {| row := alice_novel; profiles := Some alice_profile |} =
  profiles {| row := alice_draft; profiles := Some alice_profile |}.
Proof.
  apply (storiesWithAuthors_same_author
           (Some [alice_novel; alice_draft]) (Some [alice_profile])).
  - now left.
  - right. now left.
  - reflexivity.
Defined.

(* ===================================================================== *)
(** ** Notifications and captions of [ManageStories] *)
(* ===================================================================== *)

Lemma toasts_app (t u : list Event) : toasts (t ++ u) = toasts t ++ toasts u.
Proof.
  induction t as [|ev t IH]; simpl; [reflexivity|].
  destruct ev; simpl; now rewrite IH.
Qed.

Lemma fetchStories_toasts (w : World) :
  toasts (trace (snd (fetchStories w))) = toasts (trace w).
Proof.
  destruct (fault w (calls w)) as [e|] eqn:H1.
  - rewrite (fetchStories_failed w e H1). simpl.
    rewrite toasts_app. simpl. apply app_nil_r.
  - destruct (fault w (S (calls w))) as [e|] eqn:H2.
    + rewrite (fetchStories_without_profiles w e H1 H2). simpl.
      rewrite toasts_app. simpl. apply app_nil_r.
    + rewrite (fetchStories_done w H1 H2). simpl.
      rewrite toasts_app. simpl. apply app_nil_r.
Qed.

Lemma updateStory_outcome (key : string) (u : StoryUpdates) (w : World) :
  toasts (trace (snd (updateStory key u w))) = toasts (trace w)
  /\ fst (updateStory key u w) =
       match fault w (calls w) with
       | None => Returned tt
       | Some e => Thrown e
       end.
Proof.
  destruct (fault w (calls w)) as [e|] eqn:H.
  - rewrite (updateStory_write_failed key u w e H). simpl.
    rewrite toasts_app. simpl. split; [apply app_nil_r | reflexivity].
  - rewrite (updateStory_written key u w H).
    rewrite fetchStories_toasts, fetchStories_returns. simpl.
    rewrite toasts_app. simpl. split; [apply app_nil_r | reflexivity].
Qed.

Lemma deleteStory_outcome (key : string) (w : World) :
  toasts (trace (snd (deleteStory key w))) = toasts (trace w)
  /\ fst (deleteStory key w) =
       match fault w (calls w) with
       | None => Returned tt
       | Some e => Thrown e
       end.
Proof.
  destruct (fault w (calls w)) as [e|] eqn:H.
  - rewrite (deleteStory_write_failed key w e H). simpl.
    rewrite toasts_app. simpl. split; [apply app_nil_r | reflexivity].
  - rewrite (deleteStory_written key w H).
    rewrite fetchStories_toasts, fetchStories_returns. simpl.
    rewrite toasts_app. simpl. split; [apply app_nil_r | reflexivity].
Qed.

(** X9: a confirmed delete of a selected story shows exactly one
    notification, and which one depends on the delete request alone:
    success when the store accepted it, also when the re-fetch after it
    failed, and failure when the store refused it. *)
Theorem confirmDelete_notifies (sid : string) (v : ViewState) (w : World) :
  sid <> "" ->
  storyToDelete v = Some sid ->
  toasts (trace (snd (confirmDelete v w))) =
    toasts (trace w) ++
      [ match fault w (calls w) with
        | None => EvToastSuccess "Story deleted successfully"
        | Some _ => EvToastError "Failed to delete story"
        end ].
Proof.
  intros Hne Hsel. unfold confirmDelete. rewrite Hsel.
  destruct sid as [|c sid]; [contradiction|]. simpl.
  destruct (deleteStory_outcome (String c sid) w) as [Ht Ho].
  unfold try_catch, bind, toast_success, toast_error, emit, ret.
  destruct (deleteStory (String c sid) w) as [o w1]. simpl in *. subst o.
  destruct (fault w (calls w)); simpl; rewrite toasts_app, Ht; reflexivity.
Qed.

Lemma confirmDelete_notifies_witness :
  toasts (trace (snd (confirmDelete
                        (handleDeleteClick "s2" ManageStories_init)
                        (world_loaded (fault_at 1 refused))))) =
    [EvToastSuccess "Story deleted successfully"].
Proof.
  apply (confirmDelete_notifies "s2" (handleDeleteClick "s2" ManageStories_init)
           (world_loaded (fault_at 1 refused))).
  - discriminate.
  - reflexivity.
Defined.

(** X10: the caption of the publish button, the update [toggleStatus]
    requests and the notification it shows agree. Under "Unpublish" the
    one update requested sets the status of the story to draft and the
    success notification says unpublished; under "Publish" it sets the
    status to published and the notification says published. Exactly
    one notification is shown, the failure one when the store refused
    the update. *)
Theorem toggleStatus_caption_agrees (storyId currentStatus : string)
    (w : World) :
  (toggleLabel currentStatus = "Unpublish"
   /\ (exists rest,
         requests (trace (snd (toggleStatus storyId currentStatus w))) =
           requests (trace w) ++
             ReqUpdateStory storyId
               {| u_id := None; u_title := None; u_description := None;
                  u_genre := None; u_cover_image_url := None;
                  u_author_id := None; u_status := Some draft;
                  u_view_count := None; u_like_count := None;
                  u_comment_count := None; u_created_at := None;
                  u_updated_at := None |} :: rest
         /\ forallb is_select rest = true)
   /\ toasts (trace (snd (toggleStatus storyId currentStatus w))) =
        toasts (trace w) ++
          [ match fault w (calls w) with
            | None => EvToastSuccess "Story unpublished successfully"
            | Some _ => EvToastError "Failed to update story status"
            end ])
  \/ (toggleLabel currentStatus = "Publish"
      /\ (exists rest,
            requests (trace (snd (toggleStatus storyId currentStatus w))) =
              requests (trace w) ++
                ReqUpdateStory storyId
                  {| u_id := None; u_title := None; u_description := None;
                     u_genre := None; u_cover_image_url := None;
                     u_author_id := None; u_status := Some published;
                     u_view_count := None; u_like_count := None;
                     u_comment_count := None; u_created_at := None;
                     u_updated_at := None |} :: rest
            /\ forallb is_select rest = true)
      /\ toasts (trace (snd (toggleStatus storyId currentStatus w))) =
           toasts (trace w) ++
             [ match fault w (calls w) with
               | None => EvToastSuccess "Story published successfully"
               | Some _ => EvToastError "Failed to update story status"
               end ]).
Proof.
  assert (Ht : toasts (trace (snd (toggleStatus storyId currentStatus w))) =
               toasts (trace w) ++
                 [ match fault w (calls w) with
                   | None =>
                       match newStatus currentStatus with
                       | published =>
                           EvToastSuccess "Story published successfully"
                       | _ => EvToastSuccess "Story unpublished successfully"
                       end
                   | Some _ => EvToastError "Failed to update story status"
                   end ]).
  { destruct (updateStory_outcome storyId
                (status_only (newStatus currentStatus)) w) as [Ht Ho].
    unfold toggleStatus, try_catch, bind, toast_success, toast_error, emit.
    destruct (updateStory storyId (status_only (newStatus currentStatus)) w)
      as [o w1]. simpl in *. subst o.
    destruct (fault w (calls w)); simpl; rewrite toasts_app, Ht; simpl;
      [reflexivity|].
    unfold newStatus. now destruct (String.eqb currentStatus "published"). }
  destruct (toggleStatus_run storyId currentStatus w) as [Hreq _].
  unfold toggleLabel, newStatus in *.
  destruct (String.eqb currentStatus "published"); [left | right];
    (split; [reflexivity | split; [exact Hreq | exact Ht]]).
Qed.

(* ===================================================================== *)
(** ** The search box and the filter buttons *)
(* ===================================================================== *)

Lemma includes_empty (s : string) : includes s "" = true.
Proof.
  apply includes_spec. now exists "", s.
Qed.

Lemma lower_ascii_idem (c : ascii) : lower_ascii (lower_ascii c) = lower_ascii c.
Proof.
  destruct c as [[] [] [] [] [] [] [] []]; reflexivity.
Qed.

Lemma toLowerCase_idem (s : string) : toLowerCase (toLowerCase s) = toLowerCase s.
Proof.
  induction s as [|c s IH]; simpl; [reflexivity|].
  now rewrite lower_ascii_idem, IH.
Qed.

Lemma filter_filter_length {A : Type} (P : A -> bool) (Q1 Q2 Q3 : A -> bool)
    (l : list A) :
  (forall x, P x = true ->
     (Q1 x = true /\ Q2 x = false /\ Q3 x = false)
     \/ (Q1 x = false /\ Q2 x = true /\ Q3 x = false)
     \/ (Q1 x = false /\ Q2 x = false /\ Q3 x = true)) ->
  length (filter P l) =
    length (filter (fun x => P x && Q1 x) l)
    + length (filter (fun x => P x && Q2 x) l)
    + length (filter (fun x => P x && Q3 x) l).
Proof.
  intros H. induction l as [|x l IH]; simpl; [reflexivity|].
  destruct (P x) eqn:HP; simpl; [|exact IH].
  destruct (H x HP) as [[-> [-> ->]] | [[-> [-> ->]] | [-> [-> ->]]]];
    simpl; lia.
Qed.

(** X11: the three status filters split what the "all" filter shows: for
    every search string, the lists under "published", "draft" and
    "archived" have together as many stories as the list under "all",
    and each story under "all" is under exactly the filter of its own
    status. *)
Theorem status_filters_partition (user : option User) (v : ViewState)
    (w : World) :
  length (visibleStories user (setFilterStatus "all" v) w) =
    length (visibleStories user (setFilterStatus "published" v) w)
    + length (visibleStories user (setFilterStatus "draft" v) w)
    + length (visibleStories user (setFilterStatus "archived" v) w)
  /\ forall s st,
       In s (visibleStories user (setFilterStatus (status_str st) v) w)
       <-> In s (visibleStories user (setFilterStatus "all" v) w)
           /\ status (row s) = st.
Proof.
  split.
  - unfold visibleStories, filteredStories, matches. simpl.
    set (l := userStories user (st_stories w)).
    rewrite (filter_ext
      (fun story => includes (toLowerCase (title (row story)))
                      (toLowerCase (searchQuery v)) && true)
      (fun story => includes (toLowerCase (title (row story)))
                      (toLowerCase (searchQuery v)))).
    2: { intros a. apply andb_true_r. }
    apply (filter_filter_length
      (fun story => includes (toLowerCase (title (row story)))
                      (toLowerCase (searchQuery v)))
      (fun story => String.eqb (status_str (status (row story))) "published")
      (fun story => String.eqb (status_str (status (row story))) "draft")
      (fun story => String.eqb (status_str (status (row story))) "archived")).
    intros x _. destruct (status (row x)); simpl; tauto.
  - intros s st. rewrite !visibleStories_In. simpl. split.
    + intros [Hu [Hi [Hf | Hf]]].
      * destruct st; discriminate Hf.
      * repeat split; try assumption; [now left|].
        destruct (status (row s)), st; simpl in Hf; congruence.
    + intros [[Hu [Hi _]] <-]. repeat split; try assumption. now right.
Qed.

(** X12: a filter value that is neither "all" nor the name of a status
    shows nothing. *)
Theorem unknown_filter_shows_nothing (user : option User) (v : ViewState)
    (w : World) :
  ~ In (filterStatus v) filterButtons ->
  visibleStories user v w = [].
Proof.
  intros Hn. unfold visibleStories, filteredStories. apply filter_nothing.
  intros x _. unfold matches.
  destruct (String.eqb_spec (filterStatus v) "all") as [He|_].
  - exfalso. apply Hn. rewrite He. now left.
  - destruct (String.eqb_spec (status_str (status (row x))) (filterStatus v))
      as [He|_]; [|apply andb_false_r].
    exfalso. apply Hn. rewrite <- He. unfold filterButtons.
    destruct (status (row x)); simpl; tauto.
Qed.

Lemma unknown_filter_shows_nothing_witness :
  visibleStories (Some alice)
    (setFilterStatus "Published" ManageStories_init) (world_loaded no_fault) = [].
Proof.
  apply unknown_filter_shows_nothing. simpl.
  intros [H|[H|[H|[H|[]]]]]; discriminate H.
Defined.

Lemma filteredStories_unrestricted (l : list Story) :
  filteredStories l "" "all" = l.
Proof.
  unfold filteredStories.
  induction l as [|x l IH]; simpl; [reflexivity|].
  unfold matches at 1. simpl. rewrite includes_empty. simpl. now rewrite IH.
Qed.

(** X13: an empty search box restricts nothing: under the "all" filter
    the view then shows the signed-in user's stories of the collection,
    all of them and in the collection's order. *)
Theorem empty_search_shows_all (user : option User) (v : ViewState)
    (w : World) :
  visibleStories user (setSearchQuery "" (setFilterStatus "all" v)) w =
    userStories user (st_stories w).
Proof.
  unfold visibleStories. simpl. apply filteredStories_unrestricted.
Qed.

(** X14: the search does not tell upper case from lower case in the
    query: a query and its lower-cased form show the same list. *)
Theorem search_ignores_query_case (user : option User) (v : ViewState)
    (w : World) :
  visibleStories user (setSearchQuery (toLowerCase (searchQuery v)) v) w =
    visibleStories user v w.
Proof.
  unfold visibleStories, filteredStories. simpl. apply filter_ext.
  intros s. unfold matches. now rewrite toLowerCase_idem.
Qed.

(** X16: the card for an empty list offers to create the first story
    exactly when the hook is not loading, the search box is empty, the
    filter is "all" and the signed-in user has no story in the
    collection; and it is never shown while the loading text is. *)
Theorem create_button_shown (user : option User) (v : ViewState) (w : World) :
  ((exists c, render_empty (st_loading w) (visibleStories user v w) v = Some c
              /\ createButton c = true)
   <-> st_loading w = false
       /\ searchQuery v = ""
       /\ filterStatus v = "all"
       /\ userStories user (st_stories w) = [])
  /\ (render_panel (st_loading w) (visibleStories user v w) = LoadingText ->
      render_empty (st_loading w) (visibleStories user v w) v = None).
Proof.
  split.
  - unfold render_empty. split.
    + intros [c [Hc Hb]].
      destruct (Nat.eqb (length (visibleStories user v w)) 0) eqn:Hl;
        [|discriminate Hc].
      destruct (st_loading w); [discriminate Hc|]. simpl in Hc.
      injection Hc as <-. simpl in Hb.
      apply andb_true_iff in Hb. destruct Hb as [Hq Hf].
      apply String.eqb_eq in Hf.
      assert (Hq' : searchQuery v = "").
      { destruct (searchQuery v); [reflexivity | discriminate Hq]. }
      repeat split; try assumption.
      apply Nat.eqb_eq in Hl. apply length_zero_iff_nil in Hl.
      rewrite <- Hl. symmetry.
      unfold visibleStories. rewrite Hq', Hf.
      apply filteredStories_unrestricted.
    + intros [Hl [Hq [Hf Hu]]].
      assert (Hv : visibleStories user v w = []).
      { unfold visibleStories. now rewrite Hu. }
      rewrite Hv, Hl, Hq, Hf. simpl. eexists. split; reflexivity.
  - unfold render_panel, render_empty.
    destruct (st_loading w); [intros _ | discriminate].
    now rewrite andb_false_r.
Qed.

(* ===================================================================== *)
(** ** More on the reading statistics *)
(* ===================================================================== *)

(** *** Comparisons of doubles *)

Lemma is_nan_spec (x : float) :
  PrimFloat.is_nan x = false -> Prim2SF x <> S754_nan.
Proof.
  unfold PrimFloat.is_nan. rewrite eqb_spec. intros H E.
  rewrite E in H. discriminate H.
Qed.

Lemma SFcompare_antisym (x y : spec_float) :
  SFcompare y x =
    match SFcompare x y with Some c => Some (CompOpp c) | None => None end.
Proof.
  destruct x as [s|s| |s m e], y as [s'|s'| |s' m' e']; simpl;
    try reflexivity; try (now destruct s); try (now destruct s');
    try (now destruct s, s').
  destruct s, s'; try reflexivity;
    rewrite (Z.compare_antisym e e');
    replace (Pos.compare_cont Eq m' m)
      with (CompOpp (Pos.compare_cont Eq m m'))
      by apply Pos.compare_cont_antisym;
    destruct (e ?= e')%Z; simpl; try reflexivity;
    destruct (Pos.compare_cont Eq m m'); reflexivity.
Qed.

Lemma hundred_spec :
  Prim2SF 100%float = S754_finite false 7036874417766400 (-46).
Proof. reflexivity. Qed.

Lemma zero_spec : Prim2SF 0%float = S754_zero false.
Proof. reflexivity. Qed.

(** A number that is not [NaN] is in exactly one of three places:
    strictly between 0 and 100, at 100 or above, at 0 or below. *)
Lemma class_0_100 (x : float) :
  PrimFloat.is_nan x = false ->
  (PrimFloat.ltb 0 x = true /\ PrimFloat.ltb x 100 = true
   /\ PrimFloat.leb 100 x = false /\ PrimFloat.leb x 0 = false)
  \/ (PrimFloat.ltb 0 x = true /\ PrimFloat.ltb x 100 = false
      /\ PrimFloat.leb 100 x = true /\ PrimFloat.leb x 0 = false)
  \/ (PrimFloat.ltb 0 x = false /\ PrimFloat.ltb x 100 = true
      /\ PrimFloat.leb 100 x = false /\ PrimFloat.leb x 0 = true).
Proof.
  intros H. apply is_nan_spec in H.
  rewrite !ltb_spec, !leb_spec, zero_spec, hundred_spec.
  generalize 7036874417766400%positive as M. generalize (-46)%Z as E.
  intros E M. unfold SFltb, SFleb.
  rewrite (SFcompare_antisym (Prim2SF x) (S754_finite false M E)).
  rewrite (SFcompare_antisym (Prim2SF x) (S754_zero false)).
  destruct (Prim2SF x) as [s|s| |s m e]; [| |contradiction|].
  - right; right. now destruct s.
  - destruct s; [right; right | right; left]; repeat split.
  - destruct s; [right; right; repeat split|].
    cbn [SFcompare].
    destruct (e ?= E)%Z; [destruct (Pos.compare_cont Eq m M)| |]; cbn; tauto.
Qed.

(** The only number that is neither below nor above 100 is 100. *)
Lemma equal_100 (x : float) :
  PrimFloat.leb 100 x = true -> PrimFloat.ltb 100 x = false -> x = 100%float.
Proof.
  rewrite ltb_spec, leb_spec. intros H1 H2.
  apply Prim2SF_inj. rewrite hundred_spec in *.
  revert H1 H2.
  generalize 7036874417766400%positive as M. generalize (-46)%Z as E.
  intros E M. unfold SFltb, SFleb.
  destruct (Prim2SF x) as [s|s| |s m e]; try discriminate.
  - destruct s; discriminate.
  - destruct s; [discriminate|]. cbn [SFcompare].
    destruct (Z.compare_spec E e) as [He|He|He]; try discriminate.
    subst e.
    destruct (Pos.compare_cont Eq M m) eqn:Hc; try discriminate.
    intros _ _. apply Pos.compare_eq in Hc. now subst m.
Qed.

(** How a number that is not [NaN] compares with 100, both ways round. *)
Lemma around_100 (x : float) :
  PrimFloat.is_nan x = false ->
  (PrimFloat.ltb x 100 = true /\ PrimFloat.ltb 100 x = false
   /\ PrimFloat.leb x 100 = true /\ PrimFloat.leb 100 x = false
   /\ PrimFloat.eqb x 100 = false)
  \/ (x = 100%float)
  \/ (PrimFloat.ltb x 100 = false /\ PrimFloat.ltb 100 x = true
      /\ PrimFloat.leb x 100 = false /\ PrimFloat.leb 100 x = true
      /\ PrimFloat.eqb x 100 = false).
Proof.
  intros H.
  destruct (PrimFloat.leb 100 x) eqn:Hle, (PrimFloat.ltb 100 x) eqn:Hlt.
  - right; right. revert Hle Hlt. apply is_nan_spec in H.
    rewrite !ltb_spec, !leb_spec, eqb_spec, hundred_spec.
    generalize 7036874417766400%positive as M. generalize (-46)%Z as E.
    intros E M. unfold SFltb, SFleb, SFeqb.
    rewrite (SFcompare_antisym (S754_finite false M E) (Prim2SF x)).
    destruct (SFcompare (S754_finite false M E) (Prim2SF x)) as [[| |]|];
      cbn; intros; repeat split; congruence.
  - right; left. now apply equal_100.
  - exfalso. revert Hle Hlt. rewrite !ltb_spec, !leb_spec.
    unfold SFltb, SFleb.
    destruct (SFcompare (Prim2SF 100) (Prim2SF x)) as [[| |]|]; discriminate.
  - left. revert Hle Hlt. apply is_nan_spec in H.
    rewrite !ltb_spec, !leb_spec, eqb_spec, hundred_spec.
    generalize 7036874417766400%positive as M. generalize (-46)%Z as E.
    intros E M. unfold SFltb, SFleb, SFeqb.
    rewrite (SFcompare_antisym (S754_finite false M E) (Prim2SF x)).
    destruct (Prim2SF x) as [s|s| |s m e]; [| |contradiction|].
    + cbn. intros; repeat split; congruence.
    + destruct s; cbn; intros; repeat split; congruence.
    + destruct (SFcompare (S754_finite false M E) (S754_finite s m e))
        as [[| |]|] eqn:Hc;
        [ | | | exfalso; destruct s; discriminate Hc ];
        cbn; intros; repeat split; congruence.
Qed.

Lemma progress_value_not_nan (r : LibraryPage.Read) :
  PrimFloat.is_nan (LibraryPage.progress_value r) = false.
Proof.
  unfold LibraryPage.progress_value.
  destruct (LibraryPage.progress r) as [p|]; [|reflexivity].
  destruct (PrimFloat.is_nan p) eqn:Hn; [reflexivity|].
  destruct (PrimFloat.eqb p 0); [reflexivity | exact Hn].
Qed.

Lemma count_partition (reads : list LibraryPage.Read) :
  LibraryPage.count
    (fun r => PrimFloat.ltb 0 (LibraryPage.progress_value r)
              && PrimFloat.ltb (LibraryPage.progress_value r) 100) reads
  + LibraryPage.count
      (fun r => PrimFloat.leb 100 (LibraryPage.progress_value r)) reads
  + LibraryPage.count
      (fun r => PrimFloat.leb (LibraryPage.progress_value r) 0) reads
  = length reads.
Proof.
  induction reads as [|r rs IH]; simpl; [reflexivity|].
  destruct (class_0_100 _ (progress_value_not_nan r))
    as [[-> [-> [-> ->]]] | [[-> [-> [-> ->]]] | [-> [-> [-> ->]]]]];
    simpl; lia.
Qed.

(** X17: every read falls in exactly one of three classes: counted as
    currently reading, counted as completed, or counted in neither
    because its progress is missing, not a number, zero or negative. So
    the two counts are never negative and together never exceed the
    number of reads. *)
Theorem stats_partition (library : list LibraryPage.LibraryItem)
    (reads : list LibraryPage.Read) :
  (LibraryPage.currentlyReading (LibraryPage.getReadingStats library reads)
   + LibraryPage.completed (LibraryPage.getReadingStats library reads)
   + Z.of_nat (LibraryPage.count
                 (fun r => PrimFloat.leb (LibraryPage.progress_value r) 0)
                 reads)
   = Z.of_nat (length reads))%Z
  /\ (0 <= LibraryPage.currentlyReading
             (LibraryPage.getReadingStats library reads))%Z
  /\ (0 <= LibraryPage.completed
             (LibraryPage.getReadingStats library reads))%Z
  /\ (LibraryPage.currentlyReading (LibraryPage.getReadingStats library reads)
      + LibraryPage.completed (LibraryPage.getReadingStats library reads)
      <= Z.of_nat (length reads))%Z.
Proof.
  unfold LibraryPage.getReadingStats.
  cbn [LibraryPage.currentlyReading LibraryPage.completed].
  rewrite !length_filter_count.
  pose proof (count_partition reads) as H.
  rewrite (count_ext
             (fun r => PrimFloat.ltb 0 (LibraryPage.progress_or_0 r)
                       && PrimFloat.ltb (LibraryPage.progress_or_0 r) 100)
             (fun r => PrimFloat.ltb 0 (LibraryPage.progress_value r)
                       && PrimFloat.ltb (LibraryPage.progress_value r) 100)).
  2: { intros r. now rewrite progress_or_0_value. }
  rewrite (count_ext
             (fun r => PrimFloat.leb 100 (LibraryPage.progress_or_0 r))
             (fun r => PrimFloat.leb 100 (LibraryPage.progress_value r))).
  2: { intros r. now rewrite progress_or_0_value. }
  lia.
Qed.

Lemma barWidth_cases (r : LibraryPage.Read) :
  (PrimFloat.ltb (LibraryPage.progress_value r) 100 = true
   /\ PrimFloat.leb (LibraryPage.progress_value r) 100 = true
   /\ PrimFloat.leb 100 (LibraryPage.progress_value r) = false
   /\ PrimFloat.eqb (LibraryPage.progress_value r) 100 = false
   /\ LibraryView.barWidth r = LibraryPage.progress_value r)
  \/ (LibraryPage.progress_value r = 100%float
      /\ LibraryView.barWidth r = 100%float)
  \/ (PrimFloat.leb (LibraryPage.progress_value r) 100 = false
      /\ PrimFloat.leb 100 (LibraryPage.progress_value r) = true
      /\ LibraryView.barWidth r = 100%float).
Proof.
  unfold LibraryView.barWidth, LibraryView.Math_min.
  rewrite progress_or_0_value, (progress_value_not_nan r).
  destruct (around_100 _ (progress_value_not_nan r))
    as [[H1 [H2 [H3 [H4 H5]]]] | [H | [H1 [H2 [H3 [H4 H5]]]]]].
  - left. rewrite H1, H2. now repeat split.
  - right; left. rewrite H. now split.
  - right; right. rewrite H2. now repeat split.
Qed.

(** X20: the progress bar of a read is never wider than 100; it shows
    the progress itself up to 100; and the reads with a full bar are the
    reads counted as completed. *)
Theorem barWidth_spec (library : list LibraryPage.LibraryItem)
    (reads : list LibraryPage.Read) (r : LibraryPage.Read) :
  PrimFloat.leb (LibraryView.barWidth r) 100 = true
  /\ (LibraryView.barWidth r = 100%float
      <-> PrimFloat.leb 100 (LibraryPage.progress_value r) = true)
  /\ (PrimFloat.leb (LibraryPage.progress_value r) 100 = true ->
      LibraryView.barWidth r = LibraryPage.progress_value r)
  /\ LibraryPage.completed (LibraryPage.getReadingStats library reads) =
       Z.of_nat (LibraryPage.count
                   (fun x => PrimFloat.eqb (LibraryView.barWidth x) 100)
                   reads).
Proof.
  split; [|split; [|split]].
  - destruct (barWidth_cases r) as [[_ [H [_ [_ ->]]]] | [[_ ->] | [_ [_ ->]]]];
      [exact H | reflexivity | reflexivity].
  - destruct (barWidth_cases r)
      as [[H1 [_ [H [H5 ->]]]] | [[Hv ->] | [_ [H ->]]]].
    + rewrite H. split; [|discriminate].
      intros E. rewrite E in H1. discriminate H1.
    + rewrite Hv. split; reflexivity.
    + rewrite H. split; reflexivity.
  - intros Hle.
    destruct (barWidth_cases r) as [[_ [_ [_ [_ ->]]]] | [[Hv ->] | [H _]]].
    + reflexivity.
    + now rewrite Hv.
    + rewrite H in Hle. discriminate Hle.
  - unfold LibraryPage.getReadingStats. cbn [LibraryPage.completed].
    rewrite length_filter_count. f_equal. apply count_ext. intros x.
    rewrite progress_or_0_value.
    destruct (barWidth_cases x)
      as [[_ [_ [H [H5 ->]]]] | [[Hv ->] | [_ [H ->]]]].
    + now rewrite H, H5.
    + now rewrite Hv.
    + now rewrite H.
Qed.

(* ===================================================================== *)
(** ** Looking up the progress of a story *)
(* ===================================================================== *)

Lemma find_first {A : Type} (P : A -> bool) (l : list A) (x : A) :
  find P l = Some x ->
  exists pre post, l = pre ++ x :: post
                   /\ P x = true
                   /\ Forall (fun y => P y = false) pre.
Proof.
  induction l as [|y l IH]; simpl; [discriminate|].
  destruct (P y) eqn:Hy.
  - intros [= <-]. exists [], l. repeat split; [exact Hy | constructor].
  - intros H. destruct (IH H) as [pre [post [-> [Hx Hpre]]]].
    exists (y :: pre), post. repeat split; [exact Hx | now constructor].
Qed.

Lemma filter_head_find {A : Type} (P : A -> bool) (l : list A) :
  match filter P l with [] => None | first :: _ => Some first end = find P l.
Proof.
  induction l as [|y l IH]; simpl; [reflexivity|].
  destruct (P y); [reflexivity | exact IH].
Qed.

(** X21: asked without a chapter, or with the empty chapter identifier,
    [getReadingProgress] answers with the first read of the story in the
    order of the list, of whatever chapter, and with nothing exactly
    when the list has no read of the story. *)
Theorem getReadingProgress_story (reads : list LibraryPage.Read)
    (storyId : string) (chapterId : option string) :
  truthy chapterId = false ->
  (forall r,
     LibraryView.getReadingProgress reads storyId chapterId = Some r ->
     LibraryPage.story_id r = storyId
     /\ exists pre post,
          reads = pre ++ r :: post
          /\ Forall (fun y => LibraryPage.story_id y <> storyId) pre)
  /\ (LibraryView.getReadingProgress reads storyId chapterId = None
      <-> Forall (fun y => LibraryPage.story_id y <> storyId) reads).
Proof.
  intros Hc. unfold LibraryView.getReadingProgress. rewrite Hc.
  rewrite filter_head_find. split.
  - intros r Hr. apply find_first in Hr.
    destruct Hr as [pre [post [-> [Hx Hpre]]]].
    apply String.eqb_eq in Hx. split; [exact Hx|].
    exists pre, post. split; [reflexivity|].
    eapply Forall_impl; [|exact Hpre].
    intros y Hy. now apply String.eqb_neq.
  - split.
    + intros Hn. apply Forall_forall. intros y Hy.
      apply String.eqb_neq. exact (find_none _ _ Hn y Hy).
    + intros Hf. rewrite Forall_forall in Hf.
      destruct (find _ reads) as [r|] eqn:Hr; [|reflexivity].
      apply find_some in Hr. destruct Hr as [Hin Heq].
      apply String.eqb_eq in Heq. now destruct (Hf r Hin).
Qed.

Lemma getReadingProgress_story_witness :
  LibraryView.getReadingProgress reads_scenario "B" (Some "") = None
  <-> Forall (fun y => LibraryPage.story_id y <> "B") reads_scenario.
Proof.
  apply (getReadingProgress_story reads_scenario "B" (Some "")).
  reflexivity.
Defined.

(** X22: asked with a chapter, [getReadingProgress] answers with the
    first read of that story and that chapter, and with nothing exactly
    when the list has no such read, also when it has reads of other
    chapters of the story. *)
Theorem getReadingProgress_chapter (reads : list LibraryPage.Read)
    (storyId chapter : string) :
  chapter <> "" ->
  (forall r,
     LibraryView.getReadingProgress reads storyId (Some chapter) = Some r ->
     LibraryPage.story_id r = storyId
     /\ LibraryPage.chapter_id r = Some chapter
     /\ exists pre post,
          reads = pre ++ r :: post
          /\ Forall (fun y => ~ (LibraryPage.story_id y = storyId
                                 /\ LibraryPage.chapter_id y = Some chapter))
                    pre)
  /\ (LibraryView.getReadingProgress reads storyId (Some chapter) = None
      <-> Forall (fun y => ~ (LibraryPage.story_id y = storyId
                              /\ LibraryPage.chapter_id y = Some chapter))
                 reads).
Proof.
  intros Hc. unfold LibraryView.getReadingProgress.
  destruct chapter as [|c chapter]; [contradiction|]. simpl truthy. cbv iota.
  assert (Hspec : forall y,
    String.eqb (LibraryPage.story_id y) storyId
    && LibraryView.opt_eqb (LibraryPage.chapter_id y) (Some (String c chapter))
    = true
    <-> LibraryPage.story_id y = storyId
        /\ LibraryPage.chapter_id y = Some (String c chapter)).
  { intros y. rewrite andb_true_iff, String.eqb_eq.
    unfold LibraryView.opt_eqb. destruct (LibraryPage.chapter_id y) as [k|].
    - rewrite String.eqb_eq. split; intros [H1 H2]; split; congruence.
    - split; intros [H1 H2]; discriminate. }
  split.
  - intros r Hr. apply find_first in Hr.
    destruct Hr as [pre [post [-> [Hx Hpre]]]].
    apply Hspec in Hx. destruct Hx as [Hs Hk].
    split; [exact Hs|]. split; [exact Hk|].
    exists pre, post. split; [reflexivity|].
    eapply Forall_impl; [|exact Hpre].
    intros y Hy Hboth. apply Hspec in Hboth. congruence.
  - split.
    + intros Hn. apply Forall_forall. intros y Hy Hboth.
      apply Hspec in Hboth. pose proof (find_none _ _ Hn y Hy). congruence.
    + intros Hf. rewrite Forall_forall in Hf.
      destruct (find _ reads) as [r|] eqn:Hr; [|reflexivity].
      apply find_some in Hr. destruct Hr as [Hin Heq].
      apply Hspec in Heq. now destruct (Hf r Hin).
Qed.

Lemma getReadingProgress_chapter_witness :
  LibraryView.getReadingProgress reads_scenario "A" (Some "c1") = None
  <-> Forall (fun y => ~ (LibraryPage.story_id y = "A"
                          /\ LibraryPage.chapter_id y = Some "c1"))
             reads_scenario.
Proof.
  apply (getReadingProgress_chapter reads_scenario "A" "c1").
  discriminate.
Defined.

(* ===================================================================== *)
(** ** The library list *)
(* ===================================================================== *)

Lemma insert_by_perm {A : Type} (cmp : A -> A -> Z) (x : A) (l : list A) :
  Permutation (LibraryView.insert_by cmp x l) (x :: l).
Proof.
  induction l as [|y l IH]; simpl; [reflexivity|].
  destruct (cmp x y <=? 0)%Z; [reflexivity|].
  rewrite IH. apply perm_swap.
Qed.

Lemma sort_by_perm {A : Type} (cmp : A -> A -> Z) (l : list A) :
  Permutation (LibraryView.sort_by cmp l) l.
Proof.
  induction l as [|x l IH]; simpl; [reflexivity|].
  rewrite insert_by_perm. now constructor.
Qed.

(** X24: with an empty search term the library list holds exactly the
    items that have their joined story; the items without one stay out
    even then. *)
Theorem filteredLibrary_empty_search
    (sort : (LibraryPage.LibraryItem -> LibraryPage.LibraryItem -> Z) ->
            list LibraryPage.LibraryItem -> list LibraryPage.LibraryItem)
    (localeCompare : string -> string -> Z) (getTime : string -> Z)
    (library : list LibraryPage.LibraryItem) (sortBy : LibraryView.SortBy)
    (item : LibraryPage.LibraryItem) :
  (forall cmp l, Permutation (sort cmp l) l) ->
  (In item (LibraryView.filteredLibrary sort localeCompare getTime library
              "" sortBy)
   <-> In item library /\ LibraryPage.stories item <> None).
Proof.
  intros Hsort. unfold LibraryView.filteredLibrary.
  assert (Hin : In item (sort (LibraryView.compareItems localeCompare getTime sortBy)
                           (filter (LibraryView.libraryMatches "") library))
                <-> In item (filter (LibraryView.libraryMatches "") library)).
  { split; apply Permutation_in; [apply Hsort | symmetry; apply Hsort]. }
  rewrite Hin, filter_In. unfold LibraryView.libraryMatches.
  destruct (LibraryPage.stories item) as [st|].
  - change (toLowerCase "") with "". rewrite includes_empty. simpl.
    split; intros [H _]; (split; [exact H | easy]).
  - split; [intros [_ H]; discriminate | intros [_ H]; now destruct H].
Qed.

Lemma filteredLibrary_empty_search_witness :
  In (LibraryPage.mkLibraryItem None "day 2")
     (LibraryView.filteredLibrary (@LibraryView.sort_by LibraryPage.LibraryItem)
        (fun _ _ => 0%Z) (fun _ => 0%Z)
        (LibraryPage.mkLibraryItem None "day 2" :: library_scenario)
        "" LibraryView.alphabetical)
  <-> In (LibraryPage.mkLibraryItem None "day 2")
         (LibraryPage.mkLibraryItem None "day 2" :: library_scenario)
      /\ LibraryPage.stories (LibraryPage.mkLibraryItem None "day 2") <> None.
Proof.
  apply (filteredLibrary_empty_search
           (@LibraryView.sort_by LibraryPage.LibraryItem) _ _ _ _ _
           (fun cmp l => sort_by_perm cmp l)).
Defined.

(* ===================================================================== *)
(** ** Removing from the library, the author line, the sign-up prompt *)
(* ===================================================================== *)

(** X25: [handleRemove] calls [removeFromLibrary] only for a signed-in
    user who accepted the confirmation, then for the given story and
    that user, and never more than once; the confirmation is asked of
    signed-in users only; and a notification is shown exactly when the
    call was made, the success one exactly when it did not fail. *)
Theorem handleRemove_guarded (user : option User) (confirmed : bool)
    (removal : option ErrVal) (storyId : string) :
  (forall s u,
     In (LibraryView.RemoveFromLibrary s u)
        (LibraryView.handleRemove user confirmed removal storyId)
     <-> confirmed = true /\ s = storyId /\ user = Some {| uid := u |})
  /\ length (filter (fun e => match e with
                             | LibraryView.RemoveFromLibrary _ _ => true
                             | _ => false
                             end)
                    (LibraryView.handleRemove user confirmed removal storyId))
     <= 1
  /\ (forall q,
        In (LibraryView.AskConfirm q)
           (LibraryView.handleRemove user confirmed removal storyId)
        -> user <> None)
  /\ (forall m,
        In (LibraryView.ToastSuccess m)
           (LibraryView.handleRemove user confirmed removal storyId)
        <-> m = "Removed from library"
            /\ user <> None /\ confirmed = true /\ removal = None)
  /\ (forall m,
        In (LibraryView.ToastError m)
           (LibraryView.handleRemove user confirmed removal storyId)
        <-> m = "Failed to remove from library"
            /\ user <> None /\ confirmed = true /\ removal <> None).
Proof.
  unfold LibraryView.handleRemove.
  split; [|split; [|split; [|split]]].
  - intros s u.
    destruct user as [[u0]|]; destruct confirmed; destruct removal as [e|];
      simpl; split; intros H;
      intuition (try discriminate; try congruence).
  - destruct user as [[u0]|]; destruct confirmed; destruct removal as [e|];
      simpl; lia.
  - intros q H Hn. subst user. destruct H.
  - intros m.
    destruct user as [[u0]|]; destruct confirmed; destruct removal as [e|];
      simpl; split; intros H;
      intuition (try discriminate; try congruence).
  - intros m.
    destruct user as [[u0]|]; destruct confirmed; destruct removal as [e|];
      simpl; split; intros H;
      intuition (try discriminate; try congruence).
Qed.

(** X26: the author line of a library card is never empty: it is the
    display name when there is a non-empty one, else the user name when
    there is a non-empty one, else "Anonymous". *)
Theorem authorLabel_never_empty (joined : option Profile) :
  LibraryView.authorLabel joined <> ""
  /\ (forall p n, joined = Some p -> display_name p = Some n -> n <> "" ->
                  LibraryView.authorLabel joined = n)
  /\ (forall p n, joined = Some p -> truthy (display_name p) = false ->
                  username p = Some n -> n <> "" ->
                  LibraryView.authorLabel joined = n)
  /\ ((forall p, joined = Some p ->
                 truthy (display_name p) = false
                 /\ truthy (username p) = false) ->
      LibraryView.authorLabel joined = "Anonymous").
Proof.
  unfold LibraryView.authorLabel. repeat split.
  - destruct joined as [[u [[|c s]|] [[|c' s']|]]|]; simpl; discriminate.
  - intros p n -> Hd Hn. rewrite Hd. destruct n; [contradiction | reflexivity].
  - intros p n -> Hd Hu Hn. rewrite Hu.
    destruct (display_name p) as [[|c s]|]; try discriminate Hd;
      (destruct n; [contradiction | reflexivity]).
  - intros H. destruct joined as [p|]; [|reflexivity].
    destruct (H p eq_refl) as [Hd Hu].
    destruct (display_name p) as [[|c s]|]; try discriminate Hd;
      destruct (username p) as [[|c' s']|]; try discriminate Hu; reflexivity.
Qed.

(** X27: for a signed-in user the sign-up prompt never navigates, and
    rendering never opens it; for a visitor every dismissal of the prompt
    navigates, once and to "discover", nothing else does, and rendering
    opens the prompt as soon as the library has stopped loading. *)
Theorem signup_prompt_flow (es : list LibraryView.PromptEvent)
    (shown : bool) (u : User) (loading : bool) :
  filter LibraryView.is_navigate
    (snd (LibraryView.promptRun (Some u) es shown)) = []
  /\ LibraryView.promptEffect (Some u) loading shown = shown
  /\ filter LibraryView.is_navigate
       (snd (LibraryView.promptRun None es shown)) =
     map (fun _ => LibraryView.Navigate "discover")
         (filter LibraryView.is_dismissal es)
  /\ LibraryView.promptEffect None false shown = true
  /\ LibraryView.promptEffect None true shown = shown.
Proof.
  split; [|split; [reflexivity|split; [|split; reflexivity]]].
  - revert shown. induction es as [|e es IH]; intros shown; simpl;
      [reflexivity|].
    destruct e as [l|o|]; simpl;
      match goal with
      | |- context [LibraryView.promptRun (Some u) es ?s] =>
          specialize (IH s);
          destruct (LibraryView.promptRun (Some u) es s) as [s2 o2]
      end; simpl in *; exact IH.
  - revert shown. induction es as [|e es IH]; intros shown; simpl;
      [reflexivity|].
    destruct e as [l|[|]|]; simpl;
      match goal with
      | |- context [LibraryView.promptRun None es ?s] =>
          specialize (IH s);
          destruct (LibraryView.promptRun None es s) as [s2 o2]
      end; simpl in *; now rewrite ?IH.
Qed.

(* ===================================================================== *)
(** ** The delete dialog over any run of clicks *)
(* ===================================================================== *)

Lemma confirmDelete_returns (v : ViewState) (w : World) :
  exists v',
    fst (confirmDelete v w) = Returned v'
    /\ (deleteDialogOpen v' = true -> truthy (storyToDelete v) = false)
    /\ (v' = v \/ (deleteDialogOpen v' = false /\ storyToDelete v' = None)).
Proof.
  unfold confirmDelete.
  destruct (storyToDelete v) as [[|c sid]|] eqn:Hs; simpl.
  - exists v. repeat split. now left.
  - unfold try_catch, bind, toast_success, toast_error, emit, ret.
    destruct (deleteStory (String c sid) w) as [[[]|e] w1]; simpl;
      eexists; (split; [reflexivity|]); simpl;
      (split; [discriminate | right; now split]).
  - exists v. repeat split. now left.
Qed.

(** X28: no run of clicks on delete, confirm and cancel ever throws,
    whatever the store answers; and, starting from the view's first
    state, the dialog is never open without a story being selected. *)
Theorem delete_dialog_invariant (es : list UiEvent) (w : World) :
  exists v',
    fst (run_events es ManageStories_init w) = Returned v'
    /\ (deleteDialogOpen v' = true -> exists sid, storyToDelete v' = Some sid).
Proof.
  assert (Hgen : forall es v w,
    (deleteDialogOpen v = true -> exists sid, storyToDelete v = Some sid) ->
    exists v',
      fst (run_events es v w) = Returned v'
      /\ (deleteDialogOpen v' = true ->
          exists sid, storyToDelete v' = Some sid)).
  { clear es w. induction es as [|e es IH]; intros v w Hv; simpl.
    - now exists v.
    - unfold bind. destruct e as [sid| |]; simpl.
      + apply IH. simpl. intros _. now exists sid.
      + destruct (confirmDelete_returns v w) as [v1 [Hr [_ Hc]]].
        destruct (confirmDelete v w) as [o w1]. simpl in Hr. subst o.
        apply IH. destruct Hc as [-> | [Ho _]]; [exact Hv|].
        rewrite Ho. discriminate.
      + apply IH. simpl. discriminate. }
  apply Hgen. simpl. discriminate.
Qed.
